(** * MC3000 USB interface library: a shallow embedding of [mc3000.py]

    The Python module talks to a SKYRC MC3000 charger over a bulk USB
    endpoint pair.  This development embeds the protocol part of the
    module: the [struct] formats and the records unpacked from them, the
    two checksums, the command builder [send] and the three queries
    [get_machine_info], [get_battery_data] and [get_charging_progress].

    Python [bytes] are lists of [Byte.byte], Python integers are [Z],
    dictionaries are [gmap Z string], exceptions are an error value, and
    the object state (the USB endpoints and the cached attributes) is
    threaded explicitly through a small state-and-exception monad. *)

From Stdlib Require Import ZArith.
From Stdlib.Strings Require Import Byte Ascii String.
From stdpp Require Import base option list gmap strings pretty.

Local Open Scope Z_scope.

(** ** Bytes and Python integers *)

Abbreviation bytes := (list byte).

(** [data[i]] on a [bytes] object yields an int in [range(256)]. *)
Definition byte_int (b : byte) : Z := Z.of_N (Byte.to_N b).

(** The byte whose value is [z mod 256]. *)
Definition int_byte (z : Z) : byte :=
  match Byte.of_N (Z.to_N (z mod 256)) with
  | Some b => b
  | None => x00
  end.

(** ** Exceptions *)

Inductive exn : Type :=
| IndexError            (* sequence index out of range *)
| KeyError              (* missing dictionary key *)
| TypeError             (* wrong number of constructor arguments *)
| StructError           (* struct.error *)
| USBError              (* raised by the transport *)
| Exception (msg : string).

Inductive result (A : Type) : Type :=
| Ok (a : A)
| Raise (e : exn).
Arguments Ok {A} a.
Arguments Raise {A} e.

Definition rbind {A B} (r : result A) (k : A → result B) : result B :=
  match r with
  | Ok a => k a
  | Raise e => Raise e
  end.

#[global] Instance result_fmap : FMap result :=
  λ A B f r, match r with
             | Ok a => Ok (f a)
             | Raise e => Raise e
             end.

Declare Scope py_scope.
Delimit Scope py_scope with py.
Notation "x <~ r ;; k" := (rbind r (fun x => k))
  (at level 100, r at next level, right associativity) : py_scope.

(** Python indexing [seq[i]]: a negative index counts from the end. *)
Definition getitem {A} (seq : list A) (i : Z) : result A :=
  let j := if i <? 0 then i + Z.of_nat (length seq) else i in
  if j <? 0 then Raise IndexError
  else match seq !! Z.to_nat j with
       | Some a => Ok a
       | None => Raise IndexError
       end.

(** Python slicing [seq[:n]] never raises. *)
Definition slice_to {A} (seq : list A) (n : nat) : list A := take n seq.

(** [range(n)] *)
Definition range (n : nat) : list Z := Z.of_nat <$> seq 0 n.

(** [int.from_bytes(b, byteorder='little')] *)
Fixpoint int_from_bytes_little (b : bytes) : Z :=
  match b with
  | [] => 0
  | x :: b' => byte_int x + 256 * int_from_bytes_little b'
  end.

(** ** The [struct] module *)

Module struct.

(** Values that [unpack] produces and [pack] consumes. *)
Inductive value : Type :=
| VInt (z : Z)
| VBytes (b : bytes).

Inductive order : Type := Native | BigEndian | LittleEndian.

(** Format characters used by the module: pad byte, char, signed and
    unsigned byte, short and fixed-size byte string. *)
Inductive code : Type :=
| Cx | Cc | Cb | CB | Ch | Cs (n : nat).

Definition digit_of (c : ascii) : option nat :=
  let n := nat_of_ascii c in
  if ((48 <=? n) && (n <=? 57))%nat then Some (n - 48)%nat else None.

(** Items of a format string.  A count before [s] is the length of the
    byte string, before any other character it is a repeat count. *)
Fixpoint parse_items (s : string) (count : option nat) : option (list code) :=
  match s with
  | EmptyString =>
      match count with None => Some [] | Some _ => None end
  | String c s' =>
      match digit_of c with
      | Some d => parse_items s' (Some (10 * default 0 count + d)%nat)
      | None =>
          let n := default 1%nat count in
          match parse_items s' None with
          | None => None
          | Some rest =>
              if Ascii.eqb c "x" then Some (replicate n Cx ++ rest)
              else if Ascii.eqb c "c" then Some (replicate n Cc ++ rest)
              else if Ascii.eqb c "b" then Some (replicate n Cb ++ rest)
              else if Ascii.eqb c "B" then Some (replicate n CB ++ rest)
              else if Ascii.eqb c "h" then Some (replicate n Ch ++ rest)
              else if Ascii.eqb c "s" then Some (Cs n :: rest)
              else None
          end
      end
  end.

(** The optional first character selects byte order; without it the
    format is native. *)
Definition parse (fmt : string) : option (order * list code) :=
  match fmt with
  | String c s' =>
      if Ascii.eqb c ">" then pair BigEndian <$> parse_items s' None
      else if Ascii.eqb c "!" then pair BigEndian <$> parse_items s' None
      else if Ascii.eqb c "<" then pair LittleEndian <$> parse_items s' None
      else if Ascii.eqb c "@" then pair Native <$> parse_items s' None
      else pair Native <$> parse_items fmt None
  | EmptyString => Some (Native, [])
  end.

Definition size_of (c : code) : nat :=
  match c with
  | Cx | Cc | Cb | CB => 1
  | Ch => 2
  | Cs n => n
  end.

Definition calcsize_items (items : list code) : nat :=
  foldr (λ c n, size_of c + n)%nat 0%nat items.

(** Native mode aligns a short on two bytes; the module only uses
    native mode with one-byte items, so a native [h] is not decoded. *)
Definition supported (o : order) (items : list code) : bool :=
  match o with
  | Native => forallb (λ c, match c with Ch => false | _ => true end) items
  | _ => true
  end.

Definition signed (bits : Z) (u : Z) : Z :=
  if u <? 2 ^ (bits - 1) then u else u - 2 ^ bits.

Definition short_of (o : order) (b0 b1 : byte) : Z :=
  match o with
  | LittleEndian => signed 16 (byte_int b0 + 256 * byte_int b1)
  | _ => signed 16 (256 * byte_int b0 + byte_int b1)
  end.

Fixpoint unpack_items (o : order) (items : list code) (data : bytes)
  : result (list value) :=
  match items with
  | [] => Ok []
  | c :: items' =>
      match c, data with
      | Cx, _ :: d => unpack_items o items' d
      | Cc, b :: d =>
          (vs <~ unpack_items o items' d ;; Ok (VBytes [b] :: vs))%py
      | Cb, b :: d =>
          (vs <~ unpack_items o items' d ;;
           Ok (VInt (signed 8 (byte_int b)) :: vs))%py
      | CB, b :: d =>
          (vs <~ unpack_items o items' d ;; Ok (VInt (byte_int b) :: vs))%py
      | Ch, b0 :: b1 :: d =>
          (vs <~ unpack_items o items' d ;;
           Ok (VInt (short_of o b0 b1) :: vs))%py
      | Cs n, _ =>
          (vs <~ unpack_items o items' (drop n data) ;;
           Ok (VBytes (take n data) :: vs))%py
      | _, _ => Raise StructError
      end
  end.

(** [struct.unpack(fmt, data)]: the buffer must have exactly the size
    the format describes. *)
Definition unpack (fmt : string) (data : bytes) : result (list value) :=
  match parse fmt with
  | None => Raise StructError
  | Some (o, items) =>
      if negb (supported o items) then Raise StructError
      else if negb (length data =? calcsize_items items)%nat
           then Raise StructError
           else unpack_items o items data
  end.

Definition pack_int (lo hi : Z) (v : value) : result byte :=
  match v with
  | VInt z => if (lo <=? z) && (z <=? hi) then Ok (int_byte z)
              else Raise StructError
  | VBytes _ => Raise StructError
  end.

Fixpoint pack_items (o : order) (items : list code) (args : list value)
  : result bytes :=
  match items with
  | [] => match args with [] => Ok [] | _ => Raise StructError end
  | Cx :: items' =>
      (rest <~ pack_items o items' args ;; Ok (x00 :: rest))%py
  | c :: items' =>
      match args with
      | [] => Raise StructError
      | v :: args' =>
          (this <~
             match c, v with
             | Cc, VBytes [b] => Ok [b]
             | Cb, _ => (b <~ pack_int (-128) 127 v ;; Ok [b])%py
             | CB, _ => (b <~ pack_int 0 255 v ;; Ok [b])%py
             | Ch, VInt z =>
                 if (-32768 <=? z) && (z <=? 32767) then
                   let u := z mod 65536 in
                   match o with
                   | LittleEndian => Ok [int_byte u; int_byte (u / 256)]
                   | _ => Ok [int_byte (u / 256); int_byte u]
                   end
                 else Raise StructError
             | Cs n, VBytes b => Ok (take n (b ++ replicate n x00))
             | _, _ => Raise StructError
             end ;;
           rest <~ pack_items o items' args' ;;
           Ok (this ++ rest))%py
      end
  end.

(** [struct.pack(fmt, *args)] *)
Definition pack (fmt : string) (args : list value) : result bytes :=
  match parse fmt with
  | None => Raise StructError
  | Some (o, items) =>
      if negb (supported o items) then Raise StructError
      else pack_items o items args
  end.

End struct.

(** ** Module constants *)

(** Machine response data *)
Definition MACHINE_INFO_STRUCT : string := ">3xBBBBBBBBBBBBB6sBBhBBBBbB".
(** Progress status response data *)
Definition PROGRESS_STATUS_STRUCT : string := ">xBBxBBhhhhhhxxxxxxB38xB".
(** Battery response data *)
Definition CHARGE_DATA_STRUCT : string := ">xBBBBhhhhhhhBBBBBhBhB33xB".

(** Charger operational modes *)
Definition BATTERY_MODE : gmap Z string :=
  list_to_map [(0, "Charging"); (1, "Refreshing"); (2, "Storing");
               (3, "Discharging"); (4, "Cycling")]%string.
(** Battery types supported by the MC3000 *)
Definition BATTERY_TYPE : gmap Z string :=
  list_to_map [(0, "LiIon"); (1, "LiFe"); (2, "LiHV"); (3, "NiMH");
               (4, "NiCd"); (5, "NiZn"); (6, "Eneloop")]%string.
(** Cycle modes for charge cycling operations *)
Definition CYCLE_MODE : gmap Z string :=
  list_to_map [(0, "C>D"); (1, "C>D>C"); (2, "D>C"); (3, "D>C>C")]%string.

(** The degree sign, as its two UTF-8 bytes. *)
Definition degree : string :=
  String (ascii_of_nat 194) (String (ascii_of_nat 176) EmptyString).
(** Temperature units: a tuple, indexed by position. *)
Definition TEM_UNIT : list string := [degree +:+ "C"; degree +:+ "F"]%string.

(** Data protocol header and tail *)
Definition CMD_PACKET_HEADER : bytes := [x0f; x04].
Definition CMD_PACKET_TAIL : bytes := [xff; xff].
(** Data protocol progress data opcode (85) *)
Definition CMD_READ_PROGRESS_DATA : bytes := [x55].
(** Data protocol charger configuration opcode (95) *)
Definition CMD_READ_CHARGER_DATA : bytes := [x5f].

(** [d[k]] on a dictionary *)
Definition dict_getitem (d : gmap Z string) (k : Z) : result string :=
  match d !! k with
  | Some v => Ok v
  | None => Raise KeyError
  end.

#[global] Instance byte_eq_dec : EqDecision byte.
Proof.
  intros a b. destruct (Byte.eqb a b) eqn:E.
  - left. by apply Byte.byte_dec_bl.
  - right. intros ->. by rewrite Byte.byte_dec_lb in E.
Defined.

(** ** The named tuples *)

Module MachineInfo.
Record t : Type := mk {
  Sys_Mem1 : Z; Sys_Mem2 : Z; Sys_Mem3 : Z; Sys_Mem4 : Z;
  Sys_Advance : bool;
  Sys_tUnit : string;
  Sys_Buzzer_Tone : Z;
  Sys_Life_Hide : bool; Sys_LiHv_Hide : bool;
  Sys_Eneloop_Hide : bool; Sys_NiZn_Hide : bool;
  Sys_Lcd_time : Z; Sys_Min_Input : Z;
  (** a text, as the list of its code points *)
  core_type : list Z;
  upgrade_type : Z;
  is_encrypted : bool;
  customer_id : Z; language_id : Z;
  software_version_hi : Z; software_version_lo : Z;
  hardware_version : Z;
  reserved : Z;
  checksum : Z;
  software_version : string;
  machine_id : string
}.
End MachineInfo.

Module ProgressInfo.
Record t : Type := mk {
  slot : Z; type : Z; status : Z; work : Z; work_time : Z;
  voltage : Z; current : Z; caps : Z; bat_tem : Z;
  inner_resistance : Z; caps_decimal : Z; checksum : Z;
  dcaps : Z
}.
End ProgressInfo.

Module Battery.
Record t : Type := mk {
  slot : Z; work : Z;
  type : string; mode : string;
  caps : Z; cur : Z; dCur : Z; cut_volt : Z; end_volt : Z;
  end_cur : Z; end_dcur : Z;
  cycle_count : Z; cycle_delay : Z;
  cycle_mode : string;
  peak_sense : Z; trickle : Z; hold_volt : Z; cut_temp : Z; cut_time : Z;
  tem_unit : string;
  checksum : Z
}.
End Battery.

(** ** String formatting *)

Definition hex_digit (d : Z) : ascii :=
  if d <? 10 then ascii_of_nat (Z.to_nat (48 + d))
  else ascii_of_nat (Z.to_nat (55 + d)).

Fixpoint format_X_go (fuel : nat) (n : Z) (acc : string) : string :=
  match fuel with
  | O => acc
  | S fuel' =>
      let acc' := String (hex_digit (n mod 16)) acc in
      if n / 16 =? 0 then acc' else format_X_go fuel' (n / 16) acc'
  end.

(** ['{:X}'.format(n)]: upper-case hexadecimal without padding. *)
Definition format_X (n : Z) : string :=
  if n <? 0 then ("-" +:+ format_X_go (S (Z.to_nat (Z.log2 (- n)))) (- n) "")%string
  else format_X_go (S (Z.to_nat (Z.log2 n))) n "".

(** ['{s:{c}>{n}}'.format(s=s, n=n, c=c)]: [s] right-aligned in a field
    of width [n] filled with [c]. *)
Definition format_rjust (s : string) (c : ascii) (n : nat) : string :=
  (string_of_list_ascii (replicate (n - String.length s) c) +:+ s)%string.

(** ['{:.2f}'.format(hi * 1.0 + lo * 1.0 / 100.0)] for two byte values.
    The float differs from the exact [(100 * hi + lo) / 100] by far less
    than half a hundredth, so the two printed decimals are exact. *)
Definition format_version (hi lo : Z) : string :=
  let q := Z.to_N (100 * hi + lo) in
  (pretty (q / 100)%N +:+ "." +:+
   format_rjust (pretty (q mod 100)%N) "0" 2)%string.

(** ** Decoding text *)

(** A byte from [0x80] to [0xbf]. *)
Definition is_continuation (ch : Z) : bool := (0x80 <=? ch) && (ch <? 0xC0).

(** [data.decode('utf-8', errors='replace')], the text as its code
    points.  A byte that cannot start a character, or the bytes of a
    character up to the first byte that cannot continue it, become one
    replacement character [U+FFFD] and decoding goes on at the next
    byte; a character that the end of the data cuts short becomes one
    replacement character.  A second byte that would give an overlong
    form, a surrogate or a code point above [U+10FFFF] cannot continue
    its first byte. *)
Fixpoint utf8_decode_replace (data : bytes) : list Z :=
  match data with
  | [] => []
  | b :: rest =>
      let ch := byte_int b in
      if ch <? 0x80 then ch :: utf8_decode_replace rest
      else if ch <? 0xC2 then 0xFFFD :: utf8_decode_replace rest
      else if ch <? 0xE0 then
        match rest with
        | [] => [0xFFFD]
        | b2 :: rest2 =>
            let ch2 := byte_int b2 in
            if negb (is_continuation ch2)
            then 0xFFFD :: utf8_decode_replace rest
            else (ch * 64 + ch2 - (0xC0 * 64 + 0x80))
                 :: utf8_decode_replace rest2
        end
      else if ch <? 0xF0 then
        match rest with
        | [] => [0xFFFD]
        | b2 :: rest2 =>
            let ch2 := byte_int b2 in
            if negb (is_continuation ch2)
               || (if ch2 <? 0xA0 then ch =? 0xE0 else ch =? 0xED)
            then 0xFFFD :: utf8_decode_replace rest
            else
              match rest2 with
              | [] => [0xFFFD]
              | b3 :: rest3 =>
                  let ch3 := byte_int b3 in
                  if negb (is_continuation ch3)
                  then 0xFFFD :: utf8_decode_replace rest2
                  else (ch * 4096 + ch2 * 64 + ch3
                        - (0xE0 * 4096 + 0x80 * 64 + 0x80))
                       :: utf8_decode_replace rest3
              end
        end
      else if ch <? 0xF5 then
        match rest with
        | [] => [0xFFFD]
        | b2 :: rest2 =>
            let ch2 := byte_int b2 in
            if negb (is_continuation ch2)
               || (if ch2 <? 0x90 then ch =? 0xF0 else ch =? 0xF4)
            then 0xFFFD :: utf8_decode_replace rest
            else
              match rest2 with
              | [] => [0xFFFD]
              | b3 :: rest3 =>
                  let ch3 := byte_int b3 in
                  if negb (is_continuation ch3)
                  then 0xFFFD :: utf8_decode_replace rest2
                  else
                    match rest3 with
                    | [] => [0xFFFD]
                    | b4 :: rest4 =>
                        let ch4 := byte_int b4 in
                        if negb (is_continuation ch4)
                        then 0xFFFD :: utf8_decode_replace rest3
                        else (ch * 262144 + ch2 * 4096 + ch3 * 64 + ch4
                              - (0xF0 * 262144 + 0x80 * 4096 + 0x80 * 64
                                 + 0x80))
                             :: utf8_decode_replace rest4
                    end
              end
        end
      else 0xFFFD :: utf8_decode_replace rest
  end.

(** ** The interface object and its methods *)

(** The attributes of an [MC3000] object that the methods below touch.
    The USB device is an external collaborator: [ep_in] lists what the
    successive [device.read(...).tobytes()] calls will return, [ep_out]
    records the buffers handed to [device.write], oldest first. *)
Record MC3000 : Type := mkMC3000 {
  ep_in : list bytes;
  ep_out : list bytes;
  machine_info : option MachineInfo.t
}.

(** A method body: it runs on [self], returns or raises, and leaves
    [self] in a new state either way. *)
Definition M (A : Type) : Type := MC3000 → result A * MC3000.

Definition ret {A} (a : A) : M A := λ self, (Ok a, self).
Definition raise {A} (e : exn) : M A := λ self, (Raise e, self).
Definition lift {A} (r : result A) : M A := λ self, (r, self).
Definition bind {A B} (m : M A) (k : A → M B) : M B :=
  λ self, match m self with
          | (Ok a, self') => k a self'
          | (Raise e, self') => (Raise e, self')
          end.

Declare Scope method_scope.
Delimit Scope method_scope with method.
Notation "x <- m ;; k" := (bind m (fun x => k))
  (at level 100, m at next level, right associativity) : method_scope.

(** A [for] loop over [l] whose body updates the loop variables [s] and
    may raise. *)
Fixpoint for_each {A S} (l : list A) (body : A → S → result S) (s : S)
  : result S :=
  match l with
  | [] => Ok s
  | a :: l' => (s' <~ body a s ;; for_each l' body s')%py
  end.

Definition bytes_getitem (data : bytes) (i : Z) : result Z :=
  (b <~ getitem data i ;; Ok (byte_int b))%py.

(** [send_raw]: [device.write] returns the number of bytes written. *)
Definition send_raw (buffer : bytes) : M Z :=
  λ self, (Ok (Z.of_nat (length buffer)),
           mkMC3000 (ep_in self) (ep_out self ++ [buffer]) (machine_info self)).

(** [read]: the next response of the device. *)
Definition read (expected_length : Z) : M bytes :=
  λ self, match ep_in self with
          | [] => (Raise USBError, self)
          | response :: rest =>
              (Ok response, mkMC3000 rest (ep_out self) (machine_info self))
          end.

Definition set_machine_info (machine : MachineInfo.t) : M unit :=
  λ self, (Ok tt, mkMC3000 (ep_in self) (ep_out self) (Some machine)).

(** [packet_checksum] *)
Definition packet_checksum (data_packet : bytes) : result Z :=
  for_each (range 63)
    (λ i crc, (b <~ bytes_getitem data_packet i ;;
               let crc := crc + b in
               let crc := Z.land crc 0xff in
               Ok crc)%py)
    0.

(** The loop of [get_machine_info] that computes the device specific
    checksum [crc] and the [machine_id]. *)
Definition machine_id_loop (response : bytes) : result (Z * string) :=
  for_each (range 16)
    (λ j '(crc, machine_id),
       (crc <~ (if j <? 15
                then (b <~ bytes_getitem response (16 + j) ;; Ok (crc + b))
                else Ok crc) ;;
        b <~ bytes_getitem response (16 + j) ;;
        let text2 := format_X b in
        Ok (crc, machine_id +:+ format_rjust text2 "0" 2))%py)
    (0, EmptyString).

(** The [MachineInfo] tuple built from [data], [0] and [machine_id],
    followed by the [_replace]
    calls; only the [TEM_UNIT] lookup can raise. *)
Definition MachineInfo_of (data : list struct.value) (machine_id : string)
  : result MachineInfo.t :=
  match data with
  | [struct.VInt mem1; struct.VInt mem2; struct.VInt mem3; struct.VInt mem4;
     struct.VInt advance; struct.VInt tunit; struct.VInt buzzer;
     struct.VInt life; struct.VInt lihv; struct.VInt eneloop;
     struct.VInt nizn; struct.VInt lcd; struct.VInt min_input;
     struct.VBytes core; struct.VInt upgrade; struct.VInt encrypted;
     struct.VInt customer; struct.VInt language; struct.VInt hi;
     struct.VInt lo; struct.VInt hardware; struct.VInt res;
     struct.VInt chk] =>
      (unit <~ getitem TEM_UNIT tunit ;;
       Ok {| MachineInfo.Sys_Mem1 := mem1; MachineInfo.Sys_Mem2 := mem2;
             MachineInfo.Sys_Mem3 := mem3; MachineInfo.Sys_Mem4 := mem4;
             MachineInfo.Sys_Advance := advance =? 1;
             MachineInfo.Sys_tUnit := unit;
             MachineInfo.Sys_Buzzer_Tone := buzzer;
             MachineInfo.Sys_Life_Hide := life =? 1;
             MachineInfo.Sys_LiHv_Hide := lihv =? 1;
             MachineInfo.Sys_Eneloop_Hide := eneloop =? 1;
             MachineInfo.Sys_NiZn_Hide := nizn =? 1;
             MachineInfo.Sys_Lcd_time := lcd;
             MachineInfo.Sys_Min_Input := min_input;
             MachineInfo.core_type := utf8_decode_replace core;
             MachineInfo.upgrade_type := upgrade;
             MachineInfo.is_encrypted := encrypted =? 1;
             MachineInfo.customer_id := customer;
             MachineInfo.language_id := language;
             MachineInfo.software_version_hi := hi;
             MachineInfo.software_version_lo := lo;
             MachineInfo.hardware_version := hardware;
             MachineInfo.reserved := res;
             MachineInfo.checksum := chk;
             MachineInfo.software_version := format_version hi lo;
             MachineInfo.machine_id := machine_id |})%py
  | _ => Raise TypeError
  end.

(** [get_machine_info] *)
Definition get_machine_info : M MachineInfo.t :=
  (let packet := [x0f; x04; x5a; x00; x04; x5e; xff; xff] in
   _ <- send_raw packet ;;
   response <- read 64 ;;
   loop <- lift (machine_id_loop response) ;;
   let '(crc, machine_id) := loop in
   data <- lift (struct.unpack MACHINE_INFO_STRUCT (slice_to response 32)) ;;
   machine <- lift (MachineInfo_of data machine_id) ;;
   (* Prevent crc to be negative by masking it *)
   let crc := Z.land (Z.lnot crc) 0xff in
   let crc := crc + 1 in
   if negb (crc =? MachineInfo.checksum machine)
   then raise (Exception "Checksum error in device data packet")
   else (_ <- set_machine_info machine ;; ret machine))%method.

(** [send] *)
Definition send (cmd : bytes) (buffer : Z) : M unit :=
  (if bool_decide (cmd = CMD_READ_CHARGER_DATA) then
     let slotcmd := int_from_bytes_little cmd + buffer in
     cmd_packet <- lift (struct.pack "2scxbb2s"
                           [struct.VBytes CMD_PACKET_HEADER; struct.VBytes cmd;
                            struct.VInt buffer; struct.VInt slotcmd;
                            struct.VBytes CMD_PACKET_TAIL]) ;;
     _ <- send_raw cmd_packet ;;
     ret tt
   else if bool_decide (cmd = CMD_READ_PROGRESS_DATA) then
     let slotcmd := int_from_bytes_little cmd + buffer in
     cmd_packet <- lift (struct.pack "2scxbb2s"
                           [struct.VBytes CMD_PACKET_HEADER; struct.VBytes cmd;
                            struct.VInt buffer; struct.VInt slotcmd;
                            struct.VBytes CMD_PACKET_TAIL]) ;;
     _ <- send_raw cmd_packet ;;
     ret tt
   else ret tt)%method.

(** The [Battery] tuple built from [data], followed by the four table
    lookups. *)
Definition Battery_of (data : list struct.value) : result Battery.t :=
  match data with
  | [struct.VInt slot; struct.VInt work; struct.VInt type; struct.VInt mode;
     struct.VInt caps; struct.VInt cur; struct.VInt dCur;
     struct.VInt cut_volt; struct.VInt end_volt; struct.VInt end_cur;
     struct.VInt end_dcur; struct.VInt cycle_count; struct.VInt cycle_delay;
     struct.VInt cycle_mode; struct.VInt peak_sense; struct.VInt trickle;
     struct.VInt hold_volt; struct.VInt cut_temp; struct.VInt cut_time;
     struct.VInt tem_unit; struct.VInt chk] =>
      (type <~ dict_getitem BATTERY_TYPE type ;;
       mode <~ dict_getitem BATTERY_MODE mode ;;
       cycle_mode <~ dict_getitem CYCLE_MODE cycle_mode ;;
       tem_unit <~ getitem TEM_UNIT tem_unit ;;
       Ok {| Battery.slot := slot; Battery.work := work;
             Battery.type := type; Battery.mode := mode;
             Battery.caps := caps; Battery.cur := cur; Battery.dCur := dCur;
             Battery.cut_volt := cut_volt; Battery.end_volt := end_volt;
             Battery.end_cur := end_cur; Battery.end_dcur := end_dcur;
             Battery.cycle_count := cycle_count;
             Battery.cycle_delay := cycle_delay;
             Battery.cycle_mode := cycle_mode;
             Battery.peak_sense := peak_sense; Battery.trickle := trickle;
             Battery.hold_volt := hold_volt; Battery.cut_temp := cut_temp;
             Battery.cut_time := cut_time; Battery.tem_unit := tem_unit;
             Battery.checksum := chk |})%py
  | _ => Raise TypeError
  end.

(** The [for slot in range(4)] loop of [get_battery_data]; [continue]
    goes on with the list as it is. *)
Fixpoint get_battery_data_loop (slots : list Z) (batteries : list Battery.t)
  : M (list Battery.t) :=
  match slots with
  | [] => ret batteries
  | slot :: slots' =>
      (_ <- send CMD_READ_CHARGER_DATA slot ;;
       response <- read 64 ;;
       last <- lift (bytes_getitem response (-1)) ;;
       crc <- lift (packet_checksum response) ;;
       if negb (last =? crc) then get_battery_data_loop slots' batteries
       else
         data <- lift (struct.unpack CHARGE_DATA_STRUCT response) ;;
         battery <- lift (Battery_of data) ;;
         get_battery_data_loop slots' (batteries ++ [battery]))%method
  end.

(** [get_battery_data] *)
Definition get_battery_data : M (list Battery.t) :=
  get_battery_data_loop (range 4) [].

(** The [ProgressInfo] tuple built from [data] and [0], followed by the
    three corrections. *)
Definition ProgressInfo_of (data : list struct.value) : result ProgressInfo.t :=
  match data with
  | [struct.VInt slot; struct.VInt type; struct.VInt status; struct.VInt work;
     struct.VInt work_time; struct.VInt voltage; struct.VInt current;
     struct.VInt caps; struct.VInt bat_tem; struct.VInt inner_resistance;
     struct.VInt caps_decimal; struct.VInt chk] =>
      let dcaps := 0 in
      let dcaps := if work =? 2 then caps else dcaps in
      let work_time := if 0 <? work_time then work_time - 1 else work_time in
      let bat_tem := Z.land bat_tem 0x7fff in
      Ok {| ProgressInfo.slot := slot; ProgressInfo.type := type;
            ProgressInfo.status := status; ProgressInfo.work := work;
            ProgressInfo.work_time := work_time;
            ProgressInfo.voltage := voltage; ProgressInfo.current := current;
            ProgressInfo.caps := caps; ProgressInfo.bat_tem := bat_tem;
            ProgressInfo.inner_resistance := inner_resistance;
            ProgressInfo.caps_decimal := caps_decimal;
            ProgressInfo.checksum := chk; ProgressInfo.dcaps := dcaps |}
  | _ => Raise TypeError
  end.

(** The argument of [get_charging_progress]: the literal ['all'] or one
    slot index. *)
Inductive battery_slot_arg : Type :=
| all
| one_slot (slot : Z).

Fixpoint get_charging_progress_loop (slots : list Z)
  (batteries : list ProgressInfo.t) : M (list ProgressInfo.t) :=
  match slots with
  | [] => ret batteries
  | slot :: slots' =>
      (_ <- send CMD_READ_PROGRESS_DATA slot ;;
       response <- read 64 ;;
       last <- lift (bytes_getitem response (-1)) ;;
       crc <- lift (packet_checksum response) ;;
       if negb (last =? crc) then get_charging_progress_loop slots' batteries
       else
         data <- lift (struct.unpack PROGRESS_STATUS_STRUCT response) ;;
         pinfo <- lift (ProgressInfo_of data) ;;
         get_charging_progress_loop slots' (batteries ++ [pinfo]))%method
  end.

(** [get_charging_progress] *)
Definition get_charging_progress (battery_slot : battery_slot_arg)
  : M (list ProgressInfo.t) :=
  let battery_slot :=
    match battery_slot with
    | all => range 4
    | one_slot slot => [slot]
    end in
  get_charging_progress_loop battery_slot [].

(** [start] *)
Definition start : M unit :=
  (let packet := [x0f; x03; x05; x00; x05; xff; xff] in
   _ <- send_raw packet ;;
   ret tt)%method.

(** [stop] *)
Definition stop : M unit :=
  (let packet := [x0f; x03; xfe; x00; xfe; xff; xff] in
   _ <- send_raw packet ;;
   ret tt)%method.

(** The end of [__init__], once the USB device is found and claimed:
    the machine information and the battery data are requested.  The
    result is the list that [__init__] stores in [battery_data]. *)
Definition init_queries : M (list Battery.t) :=
  (_ <- get_machine_info ;;
   battery_data <- get_battery_data ;;
   ret battery_data)%method.

(** The dictionary comprehensions of the main block, which key each
    record by [slot + 1]: a later record with the same key replaces an
    earlier one. *)
Definition slot_table {A} (slot : A → Z) (l : list A) : gmap Z A :=
  foldl (λ d x, <[slot x + 1 := x]> d) ∅ l.

(** The main block up to the three values it prints as JSON. *)
Definition main
  : M (MachineInfo.t * gmap Z Battery.t * gmap Z ProgressInfo.t) :=
  (_ <- init_queries ;;
   info <- get_machine_info ;;
   batteries <- get_battery_data ;;
   status <- get_charging_progress all ;;
   ret (info, slot_table Battery.slot batteries,
        slot_table ProgressInfo.slot status))%method.

(** ** Reference descriptions used in the statements *)

(** The sum of the values of a run of bytes. *)
Definition sum_bytes (l : bytes) : Z := foldr (λ b s, byte_int b + s) 0 l.

(** The value of the byte at offset [i] of a frame. *)
Definition frame_u8 (frame : bytes) (i : nat) : Z := byte_int (nth i frame x00).

(** The big-endian signed 16-bit field at offsets [i], [i + 1]. *)
Definition frame_s16 (frame : bytes) (i : nat) : Z :=
  struct.signed 16 (256 * frame_u8 frame i + frame_u8 frame (S i)).

(** One byte as two upper-case hexadecimal digits. *)
Definition hex2 (b : byte) : string :=
  String (hex_digit (byte_int b / 16))
    (String (hex_digit (byte_int b mod 16)) EmptyString).

Definition hex_of_bytes (l : bytes) : string :=
  foldr (λ b s, hex2 b +:+ s)%string EmptyString l.

(** Bitwise NOT, mask to one byte, add one. *)
Definition twos_complement_byte (s : Z) : Z := Z.land (Z.lnot s) 0xff + 1.

(** The record [get_machine_info] builds from a response, given the
    text of the temperature unit. *)
Definition machine_record (response : bytes) (unit : string) : MachineInfo.t :=
  {| MachineInfo.Sys_Mem1 := frame_u8 response 3;
     MachineInfo.Sys_Mem2 := frame_u8 response 4;
     MachineInfo.Sys_Mem3 := frame_u8 response 5;
     MachineInfo.Sys_Mem4 := frame_u8 response 6;
     MachineInfo.Sys_Advance := frame_u8 response 7 =? 1;
     MachineInfo.Sys_tUnit := unit;
     MachineInfo.Sys_Buzzer_Tone := frame_u8 response 9;
     MachineInfo.Sys_Life_Hide := frame_u8 response 10 =? 1;
     MachineInfo.Sys_LiHv_Hide := frame_u8 response 11 =? 1;
     MachineInfo.Sys_Eneloop_Hide := frame_u8 response 12 =? 1;
     MachineInfo.Sys_NiZn_Hide := frame_u8 response 13 =? 1;
     MachineInfo.Sys_Lcd_time := frame_u8 response 14;
     MachineInfo.Sys_Min_Input := frame_u8 response 15;
     MachineInfo.core_type := utf8_decode_replace (take 6 (drop 16 response));
     MachineInfo.upgrade_type := frame_u8 response 22;
     MachineInfo.is_encrypted := frame_u8 response 23 =? 1;
     MachineInfo.customer_id := frame_s16 response 24;
     MachineInfo.language_id := frame_u8 response 26;
     MachineInfo.software_version_hi := frame_u8 response 27;
     MachineInfo.software_version_lo := frame_u8 response 28;
     MachineInfo.hardware_version := frame_u8 response 29;
     MachineInfo.reserved := struct.signed 8 (frame_u8 response 30);
     MachineInfo.checksum := frame_u8 response 31;
     MachineInfo.software_version :=
       format_version (frame_u8 response 27) (frame_u8 response 28);
     MachineInfo.machine_id := hex_of_bytes (take 16 (drop 16 response)) |}.

(** The fixed request of [get_machine_info]. *)
Definition machine_info_request : bytes :=
  [x0f; x04; x5a; x00; x04; x5e; xff; xff].

(** The frame [send] builds for a one-byte opcode and a slot. *)
Definition command_frame (opcode : byte) (slot : Z) : bytes :=
  [x0f; x04; opcode; x00; int_byte slot; int_byte (byte_int opcode + slot);
   xff; xff].

(** The state after one request went out and its response was read. *)
Definition exchanged (self : MC3000) (request : bytes) (rest : list bytes)
  : MC3000 :=
  mkMC3000 rest (ep_out self ++ [request]) (machine_info self).

(** The trailing byte of a 64-byte frame equals the generic checksum of
    its first 63 bytes. *)
Definition checksum_valid (response : bytes) : bool :=
  frame_u8 response 63 =? sum_bytes (take 63 response) mod 256.

(** Lines 237 to 242 of the module: what [get_battery_data] makes of a
    response that passed the checksum test. *)
Definition decode_battery (response : bytes) : result Battery.t :=
  (data <~ struct.unpack CHARGE_DATA_STRUCT response ;; Battery_of data)%py.

(** Lines 288 to 294 of the module: what [get_charging_progress] makes
    of a response that passed the checksum test. *)
Definition decode_progress (response : bytes) : result ProgressInfo.t :=
  (data <~ struct.unpack PROGRESS_STATUS_STRUCT response ;;
   ProgressInfo_of data)%py.

(** The records of the responses that pass the checksum test and
    decode, in order. *)
Definition decoded_batteries (responses : list bytes) : list Battery.t :=
  omap (λ response,
          if checksum_valid response
          then match decode_battery response with
               | Ok battery => Some battery
               | Raise _ => None
               end
          else None) responses.

(** The machine-info checksum as the specification words it: over the
    15 bytes that precede the trailing 16-byte block of the response. *)
Definition claimed_info_checksum (response : bytes) : Z :=
  twos_complement_byte
    (sum_bytes (take 15 (drop (length response - 16 - 15) response))).

(** The machine identifier as the specification words it: the hex
    digits of the trailing 16-byte block of the response. *)
Definition claimed_machine_id (response : bytes) : string :=
  hex_of_bytes (drop (length response - 16) response).

(** ** Sample frames *)

(** A 64-byte frame that is zero except at the listed offsets. *)
Definition frame_of (l : list (nat * byte)) : bytes :=
  foldr (λ '(i, b) frame, <[i:=b]> frame) (replicate 64 x00) l.

(** The frame with its trailing byte set to the generic checksum. *)
Definition with_checksum (frame : bytes) : bytes :=
  take 63 frame ++ [int_byte (sum_bytes (take 63 frame))].

(** A device that will answer with [responses]. *)
Definition device (responses : list bytes) : MC3000 :=
  mkMC3000 responses [] None.

(** A machine-info response: offset 16 holds 1, the checksum byte at
    offset 31 holds [0xff], the last sixteen bytes hold [0xaa]. *)
Definition info_frame : bytes :=
  replicate 16 x00 ++ [x01] ++ replicate 14 x00 ++ [xff]
  ++ replicate 16 x00 ++ replicate 16 xaa.

(** A machine-info response whose unit selector at offset 8 is 2. *)
Definition info_frame_bad_unit : bytes := frame_of [(8%nat, x02)].

(** A machine-info response whose core type starts with a byte that is
    not UTF-8: the bytes [ff 4d 43 33 30 30] at offsets 16 to 21, and
    the matching checksum [0xde] at offset 31. *)
Definition info_frame_core : bytes :=
  frame_of [(16%nat, xff); (17%nat, x4d); (18%nat, x43); (19%nat, x33);
            (20%nat, x30); (21%nat, x30); (31%nat, xde)].

(** Battery responses: slot at offset 1, chemistry at offset 3. *)
Definition battery_frame (slot type : byte) : bytes :=
  with_checksum (frame_of [(1%nat, slot); (3%nat, type)]).

(** A battery response whose trailing byte is wrong. *)
Definition battery_frame_corrupt : bytes :=
  frame_of [(1%nat, x01); (3%nat, x03); (63%nat, x09)].

(** A progress response: work mode 2, elapsed time 10, capacity 1200,
    temperature field [0x8019]. *)
Definition progress_frame (slot type : byte) : bytes :=
  with_checksum
    (frame_of [(1%nat, slot); (2%nat, type); (5%nat, x02);
               (6%nat, x00); (7%nat, x0a); (12%nat, x04); (13%nat, xb0);
               (14%nat, x80); (15%nat, x19)]).

(** The value of an upper-case hexadecimal digit. *)
Definition hex_value (c : ascii) : Z :=
  let n := Z.of_nat (nat_of_ascii c) in
  if n <? 58 then n - 48 else n - 55.

(** The byte values that a string of two-digit groups spells. *)
Fixpoint unhex (s : string) : list Z :=
  match s with
  | String c1 (String c2 s') => (16 * hex_value c1 + hex_value c2) :: unhex s'
  | _ => []
  end.

(** The progress records of the responses that pass the checksum test
    and decode, in order. *)
Definition decoded_progress (responses : list bytes) : list ProgressInfo.t :=
  omap (λ response,
          if checksum_valid response
          then match decode_progress response with
               | Ok pinfo => Some pinfo
               | Raise _ => None
               end
          else None) responses.

(** Fourteen responses that let the main block run to its end. *)
Definition main_responses : list bytes :=
  [info_frame;
   battery_frame x00 x03; battery_frame x01 x03; battery_frame x02 x00;
   battery_frame x03 x06;
   info_frame;
   battery_frame x00 x03; battery_frame_corrupt; battery_frame x02 x00;
   battery_frame x03 x06;
   progress_frame x00 x03; progress_frame x01 x03; progress_frame x02 x00;
   progress_frame x03 x06].

(** The record of [battery_frame x00 x03]. *)
Definition sample_battery : Battery.t :=
  {| Battery.slot := 0; Battery.work := 0;
     Battery.type := "NiMH"; Battery.mode := "Charging";
     Battery.caps := 0; Battery.cur := 0; Battery.dCur := 0;
     Battery.cut_volt := 0; Battery.end_volt := 0;
     Battery.end_cur := 0; Battery.end_dcur := 0;
     Battery.cycle_count := 0; Battery.cycle_delay := 0;
     Battery.cycle_mode := "C>D";
     Battery.peak_sense := 0; Battery.trickle := 0; Battery.hold_volt := 0;
     Battery.cut_temp := 0; Battery.cut_time := 0;
     Battery.tem_unit := degree +:+ "C";
     Battery.checksum := 3 |}.

(** The record of [progress_frame x00 x03]. *)
Definition sample_progress : ProgressInfo.t :=
  {| ProgressInfo.slot := 0; ProgressInfo.type := 3;
     ProgressInfo.status := 0; ProgressInfo.work := 2;
     ProgressInfo.work_time := 9;
     ProgressInfo.voltage := 0; ProgressInfo.current := 0;
     ProgressInfo.caps := 1200; ProgressInfo.bat_tem := 25;
     ProgressInfo.inner_resistance := 0; ProgressInfo.caps_decimal := 0;
     ProgressInfo.checksum := 92; ProgressInfo.dcaps := 1200 |}.

(** ** The formats *)

Example MACHINE_INFO_STRUCT_size :
  (λ p, (p.1, struct.calcsize_items p.2)) <$> struct.parse MACHINE_INFO_STRUCT
  = Some (struct.BigEndian, 32%nat).
Proof. reflexivity. Qed.

Example PROGRESS_STATUS_STRUCT_size :
  (λ p, (p.1, struct.calcsize_items p.2))
    <$> struct.parse PROGRESS_STATUS_STRUCT
  = Some (struct.BigEndian, 64%nat).
Proof. reflexivity. Qed.

Example CHARGE_DATA_STRUCT_size :
  (λ p, (p.1, struct.calcsize_items p.2)) <$> struct.parse CHARGE_DATA_STRUCT
  = Some (struct.BigEndian, 64%nat).
Proof. reflexivity. Qed.

Example command_format :
  struct.parse "2scxbb2s"
  = Some (struct.Native,
          [struct.Cs 2; struct.Cc; struct.Cx; struct.Cb; struct.Cb;
           struct.Cs 2]).
Proof. reflexivity. Qed.

Example format_version_1_05 : format_version 1 5 = "1.05".
Proof. reflexivity. Qed.

(** ** Bytes, indexing and loops *)

Lemma byte_int_range (b : byte) : 0 ≤ byte_int b < 256.
Proof.
  unfold byte_int. pose proof (Byte.to_N_bounded b) as H.
  split; [apply N2Z.is_nonneg|].
  change 256 with (Z.of_N 256). apply N2Z.inj_lt. lia.
Qed.

Lemma byte_int_int_byte (z : Z) : byte_int (int_byte z) = z mod 256.
Proof.
  unfold byte_int, int_byte.
  assert (Hr : 0 ≤ z mod 256 < 256) by (apply Z.mod_pos_bound; lia).
  destruct (Byte.of_N (Z.to_N (z mod 256))) as [b|] eqn:E.
  - apply Byte.to_of_N in E. rewrite E. rewrite Z2N.id; lia.
  - apply Byte.of_N_None_iff in E. lia.
Qed.

Lemma land_0xff (z : Z) : Z.land z 0xff = z mod 256.
Proof. change 0xff with (Z.ones 8). by rewrite Z.land_ones. Qed.

Lemma getitem_lookup {A} (l : list A) (i : nat) (a : A) :
  l !! i = Some a → getitem l (Z.of_nat i) = Ok a.
Proof.
  intros H. unfold getitem.
  destruct (Z.ltb_spec (Z.of_nat i) 0) as [?|_]; [lia|].
  destruct (Z.ltb_spec (Z.of_nat i) 0) as [?|_]; [lia|].
  by rewrite Nat2Z.id, H.
Qed.

(** The checksum loop, started at offset [k] with [n] bytes to go. *)
Lemma packet_checksum_loop (data : bytes) (n k : nat) (crc : Z) :
  (k + n ≤ length data)%nat → 0 ≤ crc < 256 →
  for_each (Z.of_nat <$> seq k n)
    (λ i crc, (b <~ bytes_getitem data i ;;
               let crc := crc + b in
               let crc := Z.land crc 0xff in
               Ok crc)%py)
    crc
  = Ok ((crc + sum_bytes (take n (drop k data))) mod 256).
Proof.
  revert k crc. induction n as [|n IH]; intros k crc Hlen Hcrc.
  - simpl. rewrite Z.add_0_r, Z.mod_small; done.
  - destruct (lookup_lt_is_Some_2 data k) as [b Hb]; [lia|].
    simpl. unfold bytes_getitem at 1.
    rewrite (getitem_lookup _ _ _ Hb). simpl rbind.
    rewrite IH; [|lia|rewrite land_0xff; apply Z.mod_pos_bound; lia].
    rewrite (drop_S _ _ _ Hb). simpl. rewrite land_0xff.
    f_equal. rewrite Zplus_mod_idemp_l. f_equal. lia.
Qed.

Lemma packet_checksum_eq (data : bytes) :
  (63 ≤ length data)%nat →
  packet_checksum data = Ok (sum_bytes (take 63 data) mod 256).
Proof.
  intros H. unfold packet_checksum, range.
  rewrite packet_checksum_loop; [|simpl; lia|lia]. by rewrite drop_0.
Qed.

Lemma for_each_app {A S} (l1 l2 : list A) (body : A → S → result S) (s : S) :
  for_each (l1 ++ l2) body s
  = (s' <~ for_each l1 body s ;; for_each l2 body s')%py.
Proof.
  revert s. induction l1 as [|a l1 IH]; intros s; simpl; [done|].
  destruct (body a s); simpl; [apply IH|done].
Qed.

(** ** Strings *)

Lemma string_app_cons (c : ascii) (s1 s2 : string) :
  (String c s1 +:+ s2)%string = String c (s1 +:+ s2).
Proof. reflexivity. Qed.

Lemma string_app_empty_l (s : string) : (EmptyString +:+ s)%string = s.
Proof. reflexivity. Qed.

Lemma string_app_assoc (s1 s2 s3 : string) :
  ((s1 +:+ s2) +:+ s3 = s1 +:+ (s2 +:+ s3))%string.
Proof.
  induction s1 as [|c s1 IH]; [done|].
  by rewrite !string_app_cons, IH.
Qed.

Lemma string_app_empty_r (s : string) : (s +:+ EmptyString)%string = s.
Proof.
  induction s as [|c s IH]; [done|]. by rewrite string_app_cons, IH.
Qed.

Lemma string_app_length (s1 s2 : string) :
  String.length (s1 +:+ s2) = (String.length s1 + String.length s2)%nat.
Proof.
  induction s1 as [|c s1 IH]; [done|].
  rewrite string_app_cons. simpl. by rewrite IH.
Qed.

Lemma format_byte (b : byte) :
  format_rjust (format_X (byte_int b)) "0" 2 = hex2 b.
Proof. destruct b; vm_compute; reflexivity. Qed.

Lemma hex_of_bytes_app (l1 l2 : bytes) :
  hex_of_bytes (l1 ++ l2) = (hex_of_bytes l1 +:+ hex_of_bytes l2)%string.
Proof.
  induction l1 as [|b l1 IH]; simpl; [done|].
  by rewrite IH, string_app_assoc.
Qed.

Lemma hex_of_bytes_length (l : bytes) :
  String.length (hex_of_bytes l) = (2 * length l)%nat.
Proof.
  induction l as [|b l IH]; simpl; [done|].
  rewrite string_app_length, IH. simpl. lia.
Qed.

(** ** The machine information request *)

(** The first fifteen rounds of the loop all add to [crc]. *)
Lemma machine_id_loop_prefix (response : bytes) (n k : nat)
    (crc : Z) (machine_id : string) :
  (k + n ≤ 15)%nat → (16 + k + n ≤ length response)%nat →
  for_each (Z.of_nat <$> seq k n)
    (λ j '(crc, machine_id),
       (crc <~ (if j <? 15
                then (b <~ bytes_getitem response (16 + j) ;; Ok (crc + b))
                else Ok crc) ;;
        b <~ bytes_getitem response (16 + j) ;;
        let text2 := format_X b in
        Ok (crc, machine_id +:+ format_rjust text2 "0" 2))%py)
    (crc, machine_id)
  = Ok (crc + sum_bytes (take n (drop (16 + k) response)),
        (machine_id +:+ hex_of_bytes (take n (drop (16 + k) response)))%string).
Proof.
  revert k crc machine_id.
  induction n as [|n IH]; intros k crc machine_id Hk Hlen.
  - simpl. by rewrite Z.add_0_r, string_app_empty_r.
  - destruct (lookup_lt_is_Some_2 response (16 + k)) as [b Hb]; [lia|].
    simpl seq. rewrite fmap_cons. simpl for_each.
    destruct (Z.ltb_spec (Z.of_nat k) 15) as [_|?]; [|lia].
    replace (16 + Z.of_nat k) with (Z.of_nat (16 + k)) by lia.
    unfold bytes_getitem. rewrite (getitem_lookup _ _ _ Hb). simpl rbind.
    rewrite format_byte.
    rewrite IH by lia.
    rewrite (drop_S _ _ _ Hb). simpl.
    replace (S (S (S (S (S (S (S (S (S (S (S (S (S (S (S (S (S k)))))))))))))))))
      with (16 + S k)%nat by lia.
    by rewrite string_app_assoc, Z.add_assoc.
Qed.

Lemma machine_id_loop_eq (response : bytes) :
  (32 ≤ length response)%nat →
  machine_id_loop response
  = Ok (sum_bytes (take 15 (drop 16 response)),
        hex_of_bytes (take 16 (drop 16 response))).
Proof.
  intros Hlen. unfold machine_id_loop, range.
  change (seq 0 16) with (seq 0 15 ++ [15%nat]).
  rewrite fmap_app, for_each_app.
  rewrite machine_id_loop_prefix by (simpl; lia).
  destruct (lookup_lt_is_Some_2 response 31) as [b Hb]; [lia|].
  assert (Hg : getitem response 31 = Ok b)
    by exact (getitem_lookup response 31 b Hb).
  simpl. unfold bytes_getitem.
  change (16 + Z.of_nat 15) with 31. rewrite Hg. simpl.
  rewrite format_byte, string_app_empty_l. f_equal. f_equal.
  assert (Hd : drop 16 response !! 15%nat = Some b) by by rewrite lookup_drop.
  rewrite (take_S_r _ _ _ Hd), hex_of_bytes_app. simpl.
  by rewrite string_app_empty_r.
Qed.

(** ** Fixed-size frames *)

(** Name the [n] bytes of a frame whose length is known to be [n]. *)
Tactic Notation "explode" ident(r) "by" ident(H) "into" integer(n) :=
  do n (destruct r as [|? r]; [simpl in H; lia|]);
  destruct r; [|simpl in H; lia]; clear H.

Lemma unpack_machine_info (r : bytes) :
  length r = 64%nat →
  struct.unpack MACHINE_INFO_STRUCT (slice_to r 32)
  = Ok [struct.VInt (frame_u8 r 3); struct.VInt (frame_u8 r 4);
        struct.VInt (frame_u8 r 5); struct.VInt (frame_u8 r 6);
        struct.VInt (frame_u8 r 7); struct.VInt (frame_u8 r 8);
        struct.VInt (frame_u8 r 9); struct.VInt (frame_u8 r 10);
        struct.VInt (frame_u8 r 11); struct.VInt (frame_u8 r 12);
        struct.VInt (frame_u8 r 13); struct.VInt (frame_u8 r 14);
        struct.VInt (frame_u8 r 15); struct.VBytes (take 6 (drop 16 r));
        struct.VInt (frame_u8 r 22); struct.VInt (frame_u8 r 23);
        struct.VInt (frame_s16 r 24); struct.VInt (frame_u8 r 26);
        struct.VInt (frame_u8 r 27); struct.VInt (frame_u8 r 28);
        struct.VInt (frame_u8 r 29);
        struct.VInt (struct.signed 8 (frame_u8 r 30));
        struct.VInt (frame_u8 r 31)].
Proof. intros H. explode r by H into 64. reflexivity. Qed.

Lemma unpack_charge_data (r : bytes) :
  length r = 64%nat →
  struct.unpack CHARGE_DATA_STRUCT r
  = Ok [struct.VInt (frame_u8 r 1); struct.VInt (frame_u8 r 2);
        struct.VInt (frame_u8 r 3); struct.VInt (frame_u8 r 4);
        struct.VInt (frame_s16 r 5); struct.VInt (frame_s16 r 7);
        struct.VInt (frame_s16 r 9); struct.VInt (frame_s16 r 11);
        struct.VInt (frame_s16 r 13); struct.VInt (frame_s16 r 15);
        struct.VInt (frame_s16 r 17); struct.VInt (frame_u8 r 19);
        struct.VInt (frame_u8 r 20); struct.VInt (frame_u8 r 21);
        struct.VInt (frame_u8 r 22); struct.VInt (frame_u8 r 23);
        struct.VInt (frame_s16 r 24); struct.VInt (frame_u8 r 26);
        struct.VInt (frame_s16 r 27); struct.VInt (frame_u8 r 29);
        struct.VInt (frame_u8 r 63)].
Proof. intros H. explode r by H into 64. reflexivity. Qed.

Lemma unpack_progress_status (r : bytes) :
  length r = 64%nat →
  struct.unpack PROGRESS_STATUS_STRUCT r
  = Ok [struct.VInt (frame_u8 r 1); struct.VInt (frame_u8 r 2);
        struct.VInt (frame_u8 r 4); struct.VInt (frame_u8 r 5);
        struct.VInt (frame_s16 r 6); struct.VInt (frame_s16 r 8);
        struct.VInt (frame_s16 r 10); struct.VInt (frame_s16 r 12);
        struct.VInt (frame_s16 r 14); struct.VInt (frame_s16 r 16);
        struct.VInt (frame_u8 r 24); struct.VInt (frame_u8 r 63)].
Proof. intros H. explode r by H into 64. reflexivity. Qed.

Lemma getitem_trailing (r : bytes) :
  length r = 64%nat → bytes_getitem r (-1) = Ok (frame_u8 r 63).
Proof. intros H. explode r by H into 64. reflexivity. Qed.

Lemma frame_u8_range (r : bytes) (i : nat) : 0 ≤ frame_u8 r i < 256.
Proof. apply byte_int_range. Qed.

Lemma TEM_UNIT_getitem (i : Z) :
  0 ≤ i →
  getitem TEM_UNIT i
  = if i <? 2 then Ok (nth (Z.to_nat i) TEM_UNIT EmptyString)
    else Raise IndexError.
Proof.
  intros Hi. unfold getitem.
  destruct (Z.ltb_spec i 0) as [?|_]; [lia|].
  destruct (Z.ltb_spec i 0) as [?|_]; [lia|].
  destruct (Z.ltb_spec i 2) as [?|?].
  - assert (i = 0 ∨ i = 1) as [-> | ->] by lia; reflexivity.
  - destruct (Z.to_nat i) as [|[|n]] eqn:E; [lia|lia|reflexivity].
Qed.

(** What [get_machine_info] does with a 64-byte response. *)
Lemma get_machine_info_run (self : MC3000) (response : bytes)
    (rest : list bytes) :
  ep_in self = response :: rest → length response = 64%nat →
  get_machine_info self
  = let self' := exchanged self machine_info_request rest in
    if frame_u8 response 8 <? 2 then
      let machine :=
        machine_record response
          (nth (Z.to_nat (frame_u8 response 8)) TEM_UNIT EmptyString) in
      if negb (twos_complement_byte (sum_bytes (take 15 (drop 16 response)))
               =? frame_u8 response 31)
      then (Raise (Exception "Checksum error in device data packet"), self')
      else (Ok machine, mkMC3000 rest (ep_out self') (Some machine))
    else (Raise IndexError, self').
Proof.
  intros Hin Hlen.
  unfold get_machine_info, bind, send_raw, read, lift. simpl ep_in.
  rewrite Hin. rewrite machine_id_loop_eq by lia.
  rewrite unpack_machine_info by done.
  unfold MachineInfo_of.
  rewrite TEM_UNIT_getitem by apply frame_u8_range.
  cbv zeta. destruct (frame_u8 response 8 <? 2); [|reflexivity].
  simpl rbind. cbv beta iota.
  change (MachineInfo.checksum _) with (frame_u8 response 31).
  fold (twos_complement_byte (sum_bytes (take 15 (drop 16 response)))).
  destruct (negb _); reflexivity.
Qed.

(** ** Commands *)

Lemma pack_command (op : byte) (buffer : Z) :
  struct.pack "2scxbb2s"
    [struct.VBytes CMD_PACKET_HEADER; struct.VBytes [op];
     struct.VInt buffer; struct.VInt (byte_int op + buffer);
     struct.VBytes CMD_PACKET_TAIL]
  = if (-128 <=? buffer) && (buffer <=? 127)
    then if (-128 <=? byte_int op + buffer) && (byte_int op + buffer <=? 127)
         then Ok (command_frame op buffer)
         else Raise StructError
    else Raise StructError.
Proof.
  unfold struct.pack. simpl struct.parse. cbv iota beta.
  simpl struct.supported. cbv iota. simpl negb. cbv iota.
  unfold struct.pack_items, struct.pack_int, rbind.
  destruct ((-128 <=? buffer) && (buffer <=? 127)); [|reflexivity].
  destruct ((-128 <=? byte_int op + buffer) && (byte_int op + buffer <=? 127));
    reflexivity.
Qed.

(** What [send] does for the two opcodes it knows. *)
Lemma send_run (op : byte) (buffer : Z) (self : MC3000) :
  op = x5f ∨ op = x55 →
  send [op] buffer self
  = if (-128 <=? buffer) && (byte_int op + buffer <=? 127)
    then (Ok tt, mkMC3000 (ep_in self)
                   (ep_out self ++ [command_frame op buffer])
                   (machine_info self))
    else (Raise StructError, self).
Proof.
  intros Hop.
  assert (Hpos : 0 < byte_int op) by (destruct Hop as [-> | ->]; done).
  assert (Hsend :
    send [op] buffer self
    = bind (lift (struct.pack "2scxbb2s"
                    [struct.VBytes CMD_PACKET_HEADER; struct.VBytes [op];
                     struct.VInt buffer; struct.VInt (byte_int op + buffer);
                     struct.VBytes CMD_PACKET_TAIL]))
        (λ cmd_packet, bind (send_raw cmd_packet) (λ _, ret tt)) self).
  { destruct Hop as [-> | ->]; reflexivity. }
  rewrite Hsend, pack_command. unfold bind, lift, send_raw, ret.
  destruct (Z.leb_spec (-128) buffer), (Z.leb_spec buffer 127),
    (Z.leb_spec (-128) (byte_int op + buffer)),
    (Z.leb_spec (byte_int op + buffer) 127); simpl; try reflexivity; lia.
Qed.

(** ** The lookup tables *)

Lemma BATTERY_TYPE_missing (k : Z) :
  ¬ (0 ≤ k ≤ 6) → dict_getitem BATTERY_TYPE k = Raise KeyError.
Proof.
  intros H. unfold dict_getitem, BATTERY_TYPE. simpl list_to_map.
  rewrite !lookup_insert_ne by lia. by rewrite lookup_empty.
Qed.

Lemma BATTERY_MODE_missing (k : Z) :
  ¬ (0 ≤ k ≤ 4) → dict_getitem BATTERY_MODE k = Raise KeyError.
Proof.
  intros H. unfold dict_getitem, BATTERY_MODE. simpl list_to_map.
  rewrite !lookup_insert_ne by lia. by rewrite lookup_empty.
Qed.

Lemma CYCLE_MODE_missing (k : Z) :
  ¬ (0 ≤ k ≤ 3) → dict_getitem CYCLE_MODE k = Raise KeyError.
Proof.
  intros H. unfold dict_getitem, CYCLE_MODE. simpl list_to_map.
  rewrite !lookup_insert_ne by lia. by rewrite lookup_empty.
Qed.

Lemma BATTERY_TYPE_present (k : Z) :
  0 ≤ k ≤ 6 → ∃ v, dict_getitem BATTERY_TYPE k = Ok v.
Proof.
  intros H.
  assert (k = 0 ∨ k = 1 ∨ k = 2 ∨ k = 3 ∨ k = 4 ∨ k = 5 ∨ k = 6)
    as Hk by lia.
  repeat destruct Hk as [-> | Hk]; try subst k; eexists; vm_compute;
    reflexivity.
Qed.

Lemma BATTERY_MODE_present (k : Z) :
  0 ≤ k ≤ 4 → ∃ v, dict_getitem BATTERY_MODE k = Ok v.
Proof.
  intros H.
  assert (k = 0 ∨ k = 1 ∨ k = 2 ∨ k = 3 ∨ k = 4) as Hk by lia.
  repeat destruct Hk as [-> | Hk]; try subst k; eexists; vm_compute;
    reflexivity.
Qed.

Lemma CYCLE_MODE_present (k : Z) :
  0 ≤ k ≤ 3 → ∃ v, dict_getitem CYCLE_MODE k = Ok v.
Proof.
  intros H.
  assert (k = 0 ∨ k = 1 ∨ k = 2 ∨ k = 3) as Hk by lia.
  repeat destruct Hk as [-> | Hk]; try subst k; eexists; vm_compute;
    reflexivity.
Qed.

(** ** Decoding one response *)

Lemma decode_battery_eq (r : bytes) :
  length r = 64%nat →
  decode_battery r
  = (type <~ dict_getitem BATTERY_TYPE (frame_u8 r 3) ;;
     mode <~ dict_getitem BATTERY_MODE (frame_u8 r 4) ;;
     cycle_mode <~ dict_getitem CYCLE_MODE (frame_u8 r 21) ;;
     tem_unit <~ getitem TEM_UNIT (frame_u8 r 29) ;;
     Ok {| Battery.slot := frame_u8 r 1; Battery.work := frame_u8 r 2;
           Battery.type := type; Battery.mode := mode;
           Battery.caps := frame_s16 r 5; Battery.cur := frame_s16 r 7;
           Battery.dCur := frame_s16 r 9; Battery.cut_volt := frame_s16 r 11;
           Battery.end_volt := frame_s16 r 13;
           Battery.end_cur := frame_s16 r 15;
           Battery.end_dcur := frame_s16 r 17;
           Battery.cycle_count := frame_u8 r 19;
           Battery.cycle_delay := frame_u8 r 20;
           Battery.cycle_mode := cycle_mode;
           Battery.peak_sense := frame_u8 r 22;
           Battery.trickle := frame_u8 r 23;
           Battery.hold_volt := frame_s16 r 24;
           Battery.cut_temp := frame_u8 r 26;
           Battery.cut_time := frame_s16 r 27;
           Battery.tem_unit := tem_unit;
           Battery.checksum := frame_u8 r 63 |})%py.
Proof.
  intros H. unfold decode_battery. rewrite unpack_charge_data by done.
  reflexivity.
Qed.

Lemma decode_progress_eq (r : bytes) :
  length r = 64%nat →
  decode_progress r
  = Ok {| ProgressInfo.slot := frame_u8 r 1;
          ProgressInfo.type := frame_u8 r 2;
          ProgressInfo.status := frame_u8 r 4;
          ProgressInfo.work := frame_u8 r 5;
          ProgressInfo.work_time :=
            (if 0 <? frame_s16 r 6 then frame_s16 r 6 - 1
             else frame_s16 r 6);
          ProgressInfo.voltage := frame_s16 r 8;
          ProgressInfo.current := frame_s16 r 10;
          ProgressInfo.caps := frame_s16 r 12;
          ProgressInfo.bat_tem := Z.land (frame_s16 r 14) 0x7fff;
          ProgressInfo.inner_resistance := frame_s16 r 16;
          ProgressInfo.caps_decimal := frame_u8 r 24;
          ProgressInfo.checksum := frame_u8 r 63;
          ProgressInfo.dcaps :=
            (if frame_u8 r 5 =? 2 then frame_s16 r 12 else 0) |}.
Proof.
  intros H. unfold decode_progress. rewrite unpack_progress_status by done.
  reflexivity.
Qed.

(** ** One round of the slot loops *)

Lemma get_battery_data_step (slot : Z) (slots : list Z)
    (batteries : list Battery.t) (self : MC3000) (response : bytes)
    (rest : list bytes) :
  ep_in self = response :: rest → length response = 64%nat →
  -128 ≤ slot ≤ 32 →
  get_battery_data_loop (slot :: slots) batteries self
  = let self' := exchanged self (command_frame x5f slot) rest in
    if checksum_valid response then
      match decode_battery response with
      | Ok battery => get_battery_data_loop slots (batteries ++ [battery]) self'
      | Raise e => (Raise e, self')
      end
    else get_battery_data_loop slots batteries self'.
Proof.
  intros Hin Hlen Hslot. simpl get_battery_data_loop. unfold bind at 1.
  change CMD_READ_CHARGER_DATA with [x5f]. rewrite send_run by auto.
  change (byte_int x5f) with 95.
  destruct (Z.leb_spec (-128) slot); [|lia].
  destruct (Z.leb_spec (95 + slot) 127); [|lia].
  simpl andb. cbv iota. unfold bind at 1, read at 1. simpl ep_in.
  rewrite Hin. unfold bind, lift.
  rewrite getitem_trailing by done. rewrite packet_checksum_eq by lia.
  fold (checksum_valid response). fold (decode_battery response).
  unfold exchanged. simpl.
  destruct (checksum_valid response); simpl; [|reflexivity].
  unfold decode_battery, rbind.
  destruct (struct.unpack CHARGE_DATA_STRUCT response); [|reflexivity].
  destruct (Battery_of a); reflexivity.
Qed.

Lemma get_charging_progress_step (slot : Z) (slots : list Z)
    (batteries : list ProgressInfo.t) (self : MC3000) (response : bytes)
    (rest : list bytes) :
  ep_in self = response :: rest → length response = 64%nat →
  -128 ≤ slot ≤ 42 →
  get_charging_progress_loop (slot :: slots) batteries self
  = let self' := exchanged self (command_frame x55 slot) rest in
    if checksum_valid response then
      match decode_progress response with
      | Ok pinfo => get_charging_progress_loop slots (batteries ++ [pinfo]) self'
      | Raise e => (Raise e, self')
      end
    else get_charging_progress_loop slots batteries self'.
Proof.
  intros Hin Hlen Hslot. simpl get_charging_progress_loop. unfold bind at 1.
  change CMD_READ_PROGRESS_DATA with [x55]. rewrite send_run by auto.
  change (byte_int x55) with 85.
  destruct (Z.leb_spec (-128) slot); [|lia].
  destruct (Z.leb_spec (85 + slot) 127); [|lia].
  simpl andb. cbv iota. unfold bind at 1, read at 1. simpl ep_in.
  rewrite Hin. unfold bind, lift.
  rewrite getitem_trailing by done. rewrite packet_checksum_eq by lia.
  fold (checksum_valid response).
  unfold exchanged. simpl.
  destruct (checksum_valid response); simpl; [|reflexivity].
  unfold decode_progress, rbind.
  destruct (struct.unpack PROGRESS_STATUS_STRUCT response); [|reflexivity].
  destruct (ProgressInfo_of a); reflexivity.
Qed.

(** * The generic checksum *)

(** C2: for every buffer of at least 63 bytes, [packet_checksum] returns
    the sum of the bytes at positions 0 to 62 modulo 256; that value lies
    in [0, 255], and any buffer with the same first 63 bytes gets the
    same result. *)
Theorem packet_checksum_first_63 (buf : bytes) :
  (63 ≤ length buf)%nat →
  packet_checksum buf = Ok (sum_bytes (take 63 buf) mod 256)
  ∧ 0 ≤ sum_bytes (take 63 buf) mod 256 ≤ 255
  ∧ ∀ buf' : bytes,
      take 63 buf' = take 63 buf → packet_checksum buf' = packet_checksum buf.
Proof.
  intros Hlen. split; [by apply packet_checksum_eq|]. split.
  - pose proof (Z.mod_pos_bound (sum_bytes (take 63 buf)) 256). lia.
  - intros buf' Heq.
    assert (Hlen' : (63 ≤ length buf')%nat).
    { apply (f_equal length) in Heq. rewrite !length_take in Heq. lia. }
    by rewrite !packet_checksum_eq, Heq.
Qed.

Lemma packet_checksum_first_63_witness :
  packet_checksum info_frame = Ok (sum_bytes (take 63 info_frame) mod 256)
  ∧ 0 ≤ sum_bytes (take 63 info_frame) mod 256 ≤ 255
  ∧ ∀ buf' : bytes,
      take 63 buf' = take 63 info_frame →
      packet_checksum buf' = packet_checksum info_frame.
Proof. apply (packet_checksum_first_63 info_frame). simpl. lia. Defined.

(** * Building commands *)

(** C3, as the code has it: every frame that [send] hands to the device
    is 8 bytes long, not 64: the header [0x0f 0x04], the opcode, one zero
    pad byte, the slot byte, the sum byte and the tail [0xff 0xff]. *)
Theorem send_frame_layout (cmd : bytes) (buffer : Z) (self : MC3000)
    (frame : bytes) :
  ep_out (send cmd buffer self).2 = ep_out self ++ [frame] →
  length frame = 8%nat
  ∧ ∃ op : byte,
      cmd = [op] ∧ (op = x5f ∨ op = x55)
      ∧ frame = CMD_PACKET_HEADER ++ [op] ++ [x00] ++ [int_byte buffer]
                ++ [int_byte (byte_int op + buffer)] ++ CMD_PACKET_TAIL.
Proof.
  intros Hout.
  assert (Hnone : ep_out self ≠ ep_out self ++ [frame]).
  { intros E. apply (f_equal length) in E. rewrite length_app in E.
    simpl in E. lia. }
  assert (Hknown : ∀ op, op = x5f ∨ op = x55 → cmd = [op] →
            length frame = 8%nat
            ∧ ∃ op : byte,
                cmd = [op] ∧ (op = x5f ∨ op = x55)
                ∧ frame = CMD_PACKET_HEADER ++ [op] ++ [x00]
                          ++ [int_byte buffer]
                          ++ [int_byte (byte_int op + buffer)]
                          ++ CMD_PACKET_TAIL).
  { intros op Hop ->. rewrite send_run in Hout by done.
    destruct ((-128 <=? buffer) && (byte_int op + buffer <=? 127));
      simpl in Hout; [|done].
    apply app_inv_head in Hout. injection Hout as <-.
    split; [reflexivity|]. exists op. auto. }
  destruct (decide (cmd = CMD_READ_CHARGER_DATA)) as [E1|N1];
    [by apply (Hknown x5f); auto|].
  destruct (decide (cmd = CMD_READ_PROGRESS_DATA)) as [E2|N2];
    [by apply (Hknown x55); auto|].
  unfold send in Hout.
  rewrite (bool_decide_eq_false_2 _ N1), (bool_decide_eq_false_2 _ N2) in Hout.
  done.
Qed.

Lemma send_frame_layout_witness :
  length (command_frame x5f 2) = 8%nat
  ∧ ∃ op : byte,
      CMD_READ_CHARGER_DATA = [op] ∧ (op = x5f ∨ op = x55)
      ∧ command_frame x5f 2
        = CMD_PACKET_HEADER ++ [op] ++ [x00] ++ [int_byte 2]
          ++ [int_byte (byte_int op + 2)] ++ CMD_PACKET_TAIL.
Proof.
  apply (send_frame_layout CMD_READ_CHARGER_DATA 2 (device [])).
  reflexivity.
Defined.

(** C3 as stated fails: the frame built for the charger-configuration
    command of slot 0 has 8 bytes. *)
Lemma send_frame_not_64_bytes :
  ∃ frame : bytes,
    send CMD_READ_CHARGER_DATA 0 (device [])
    = (Ok tt, mkMC3000 [] [frame] None)
    ∧ frame = [x0f; x04; x5f; x00; x00; x5f; xff; xff]
    ∧ length frame ≠ 64%nat.
Proof.
  exists [x0f; x04; x5f; x00; x00; x5f; xff; xff].
  split; [reflexivity|]. split; [reflexivity|]. simpl. lia.
Qed.

(** C4, as the code has it: the slot and the sum [opcode + slot] are
    packed as signed bytes.  When [-128 <= slot] and
    [opcode + slot <= 127] the frame goes out and its byte at offset 5
    reads back as [(opcode + slot) mod 256]; otherwise [pack] raises and
    nothing is sent. *)
Theorem send_seqcheck (op : byte) (slot : Z) (self : MC3000) :
  op = x5f ∨ op = x55 →
  (-128 ≤ slot ∧ byte_int op + slot ≤ 127 →
   ∃ frame : bytes,
     send [op] slot self
     = (Ok tt, mkMC3000 (ep_in self) (ep_out self ++ [frame])
                 (machine_info self))
     ∧ byte_int <$> frame !! 5%nat = Some ((byte_int op + slot) mod 256))
  ∧ (slot < -128 ∨ 127 < byte_int op + slot →
     send [op] slot self = (Raise StructError, self)).
Proof.
  intros Hop. rewrite send_run by done. split.
  - intros [H1 H2].
    destruct (Z.leb_spec (-128) slot); [|lia].
    destruct (Z.leb_spec (byte_int op + slot) 127); [|lia].
    exists (command_frame op slot). split; [reflexivity|].
    simpl. by rewrite byte_int_int_byte.
  - intros H.
    destruct (Z.leb_spec (-128) slot); [|reflexivity].
    destruct (Z.leb_spec (byte_int op + slot) 127); [lia|reflexivity].
Qed.

Lemma send_seqcheck_witness :
  (-128 ≤ 3 ∧ byte_int x5f + 3 ≤ 127 →
   ∃ frame : bytes,
     send [x5f] 3 (device [])
     = (Ok tt, mkMC3000 (ep_in (device [])) (ep_out (device []) ++ [frame])
                 (machine_info (device [])))
     ∧ byte_int <$> frame !! 5%nat = Some ((byte_int x5f + 3) mod 256))
  ∧ (3 < -128 ∨ 127 < byte_int x5f + 3 →
     send [x5f] 3 (device []) = (Raise StructError, device [])).
Proof. apply (send_seqcheck x5f 3 (device [])). left. reflexivity. Defined.

(** C4 as stated fails: for the slot byte 33 the sum 95 + 33 = 128 does
    not fit a signed byte, [pack] raises and no frame is built. *)
Lemma send_slot_33_raises :
  0 ≤ 33 ≤ 255
  ∧ send CMD_READ_CHARGER_DATA 33 (device [])
    = (Raise StructError, device []).
Proof. split; [lia|reflexivity]. Qed.

(** C9, as the code has it: for an opcode other than the two known ones
    [send] does nothing: no frame is sent and no error is raised. *)
Theorem send_unknown_opcode (cmd : bytes) (buffer : Z) (self : MC3000) :
  cmd ≠ CMD_READ_CHARGER_DATA → cmd ≠ CMD_READ_PROGRESS_DATA →
  send cmd buffer self = (Ok tt, self).
Proof.
  intros H1 H2. unfold send.
  rewrite (bool_decide_eq_false_2 _ H1), (bool_decide_eq_false_2 _ H2).
  reflexivity.
Qed.

Lemma send_unknown_opcode_witness :
  send [x5a] 4 (device []) = (Ok tt, device []).
Proof. apply (send_unknown_opcode [x5a] 4 (device [])); discriminate. Defined.

(** C9 as stated fails: the machine-info opcode [0x5a] is not in the
    supported set, yet [send] returns normally. *)
Lemma send_unknown_opcode_no_error :
  [x5a] ≠ CMD_READ_PROGRESS_DATA ∧ [x5a] ≠ CMD_READ_CHARGER_DATA
  ∧ (send [x5a] 4 (device [])).1 = Ok tt
  ∧ ¬ ∃ e, (send [x5a] 4 (device [])).1 = Raise e.
Proof.
  split; [discriminate|]. split; [discriminate|]. split; [reflexivity|].
  intros [e He]. discriminate He.
Qed.

(** * The machine information response *)

Lemma twos_complement_byte_eq (s : Z) :
  twos_complement_byte s = 256 - s mod 256.
Proof.
  unfold twos_complement_byte. rewrite land_0xff. unfold Z.lnot.
  pose proof (Z.div_mod s 256) as Hs.
  pose proof (Z.mod_pos_bound s 256) as Hr.
  rewrite <- (Z.mod_unique_pos (Z.pred (- s)) 256 (- (s / 256) - 1)
                (255 - s mod 256)); lia.
Qed.

Example hex2_ab : hex2 xab = "AB".
Proof. reflexivity. Qed.

Example hex2_0a : hex2 x0a = "0A".
Proof. reflexivity. Qed.

(** C1, as the code has it: the checksum is taken over the 15 bytes at
    offsets 16 to 30, which are the first 15 bytes of the block that is
    rendered as the machine id and the 15 bytes before the checksum byte
    at offset 31.  The sum is complemented, masked to a byte and
    incremented, which gives [256 - sum mod 256], a value from 1 to 256.
    On a mismatch no record is returned or stored: the call raises the
    checksum exception when the unit selector at offset 8 is 0 or 1 (the
    unit lookup, which comes first, raises otherwise).  On a match with
    a valid unit selector the record is returned and stored. *)
Theorem machine_info_checksum (self : MC3000) (response : bytes)
    (rest : list bytes) :
  ep_in self = response :: rest → length response = 64%nat →
  let crc := twos_complement_byte (sum_bytes (take 15 (drop 16 response))) in
  let out := get_machine_info self in
  crc = 256 - sum_bytes (take 15 (drop 16 response)) mod 256
  ∧ 1 ≤ crc ≤ 256
  ∧ (crc ≠ frame_u8 response 31 →
     (∃ e, out.1 = Raise e
           ∧ (frame_u8 response 8 < 2 →
              e = Exception "Checksum error in device data packet"))
     ∧ machine_info out.2 = machine_info self)
  ∧ (crc = frame_u8 response 31 → frame_u8 response 8 < 2 →
     ∃ m, out.1 = Ok m ∧ MachineInfo.checksum m = crc
          ∧ machine_info out.2 = Some m).
Proof.
  intros Hin Hlen crc out.
  assert (Hcrc : crc = 256 - sum_bytes (take 15 (drop 16 response)) mod 256)
    by apply twos_complement_byte_eq.
  pose proof (Z.mod_pos_bound (sum_bytes (take 15 (drop 16 response))) 256).
  split; [done|]. split; [lia|].
  subst out. rewrite (get_machine_info_run self response rest Hin Hlen).
  fold crc. cbv zeta. split.
  - intros Hne. destruct (Z.ltb_spec (frame_u8 response 8) 2).
    + destruct (Z.eqb_spec crc (frame_u8 response 31)); [done|].
      simpl. split; [|done]. eexists. split; [reflexivity|done].
    + simpl. split; [|done]. eexists. split; [reflexivity|lia].
  - intros Heq Hunit. destruct (Z.ltb_spec (frame_u8 response 8) 2); [|lia].
    destruct (Z.eqb_spec crc (frame_u8 response 31)); [|done].
    simpl. eexists. split; [reflexivity|]. split; [|reflexivity].
    simpl. lia.
Qed.

Lemma machine_info_checksum_witness :
  let crc := twos_complement_byte (sum_bytes (take 15 (drop 16 info_frame))) in
  let out := get_machine_info (device [info_frame]) in
  crc = 256 - sum_bytes (take 15 (drop 16 info_frame)) mod 256
  ∧ 1 ≤ crc ≤ 256
  ∧ (crc ≠ frame_u8 info_frame 31 →
     (∃ e, out.1 = Raise e
           ∧ (frame_u8 info_frame 8 < 2 →
              e = Exception "Checksum error in device data packet"))
     ∧ machine_info out.2 = machine_info (device [info_frame]))
  ∧ (crc = frame_u8 info_frame 31 → frame_u8 info_frame 8 < 2 →
     ∃ m, out.1 = Ok m ∧ MachineInfo.checksum m = crc
          ∧ machine_info out.2 = Some m).
Proof.
  apply (machine_info_checksum (device [info_frame]) info_frame []);
    reflexivity.
Defined.

(** C1 as stated fails: in [info_frame] the 15 bytes before the trailing
    16-byte block are zero, so the checksum the claim describes is 256
    and differs from the embedded checksum 255; the claim has the call
    fail, yet [get_machine_info] accepts the frame, because the bytes
    at offsets 16 to 30 sum to 1.  With a unit selector of 2 a frame
    with a wrong checksum raises [IndexError], not the checksum
    exception. *)
Lemma machine_info_checksum_other_bytes :
  length info_frame = 64%nat
  ∧ claimed_info_checksum info_frame = 256
  ∧ twos_complement_byte (sum_bytes (take 15 (drop 1 info_frame))) = 256
  ∧ frame_u8 info_frame 31 = 255
  ∧ (∃ m, (get_machine_info (device [info_frame])).1 = Ok m
          ∧ MachineInfo.checksum m = 255)
  ∧ twos_complement_byte (sum_bytes (take 15 (drop 16 info_frame_bad_unit)))
    ≠ frame_u8 info_frame_bad_unit 31
  ∧ (get_machine_info (device [info_frame_bad_unit])).1 = Raise IndexError.
Proof.
  split; [reflexivity|]. split; [reflexivity|]. split; [reflexivity|].
  split; [reflexivity|]. split.
  - eexists. split; [vm_compute; reflexivity|reflexivity].
  - split; [vm_compute; discriminate|vm_compute; reflexivity].
Qed.

(** C5, as the code has it: the machine id is made of the 16 bytes at
    offsets 16 to 31 of the response, the last 16 bytes of the 32-byte
    part that is unpacked, each as two upper-case hexadecimal digits
    padded with a zero, in order: 32 characters. *)
Theorem machine_id_hex (self : MC3000) (response : bytes)
    (rest : list bytes) :
  ep_in self = response :: rest → length response = 64%nat →
  frame_u8 response 8 < 2 →
  twos_complement_byte (sum_bytes (take 15 (drop 16 response)))
  = frame_u8 response 31 →
  ∃ m, (get_machine_info self).1 = Ok m
       ∧ MachineInfo.machine_id m = hex_of_bytes (take 16 (drop 16 response))
       ∧ String.length (MachineInfo.machine_id m) = 32%nat.
Proof.
  intros Hin Hlen Hunit Hcrc.
  rewrite (get_machine_info_run self response rest Hin Hlen). cbv zeta.
  destruct (Z.ltb_spec (frame_u8 response 8) 2); [|lia].
  rewrite Hcrc, Z.eqb_refl. simpl.
  eexists. split; [reflexivity|]. split; [reflexivity|].
  simpl. rewrite hex_of_bytes_length, length_take, length_drop. lia.
Qed.

Lemma machine_id_hex_witness :
  ∃ m, (get_machine_info (device [info_frame])).1 = Ok m
       ∧ MachineInfo.machine_id m = hex_of_bytes (take 16 (drop 16 info_frame))
       ∧ String.length (MachineInfo.machine_id m) = 32%nat.
Proof.
  apply (machine_id_hex (device [info_frame]) info_frame []); reflexivity.
Defined.

(** C5 as stated fails: the last 16 bytes of [info_frame] are all
    [0xaa], but the machine id is made of the bytes at offsets 16 to
    31. *)
Lemma machine_id_not_trailing_block :
  length info_frame = 64%nat
  ∧ claimed_machine_id info_frame = "AAAAAAAAAAAAAAAAAAAAAAAAAAAAAAAA"
  ∧ ∃ m, (get_machine_info (device [info_frame])).1 = Ok m
         ∧ MachineInfo.machine_id m = "010000000000000000000000000000FF"
         ∧ MachineInfo.machine_id m ≠ claimed_machine_id info_frame.
Proof.
  split; [reflexivity|]. split; [reflexivity|].
  eexists. split; [vm_compute; reflexivity|].
  split; [reflexivity|]. vm_compute. discriminate.
Qed.

(** C10, as the code has it: when the bytes at offsets 16 to 30 sum to
    a multiple of 256 the computed checksum is 256, which no byte
    equals, so [get_machine_info] never returns a record for such a
    frame whatever its checksum byte; it raises the checksum exception
    when the unit selector at offset 8 is 0 or 1 and the [IndexError]
    of the unit lookup otherwise. *)
Theorem zero_sum_rejected (self : MC3000) (response : bytes)
    (rest : list bytes) :
  ep_in self = response :: rest → length response = 64%nat →
  sum_bytes (take 15 (drop 16 response)) mod 256 = 0 →
  twos_complement_byte (sum_bytes (take 15 (drop 16 response))) = 256
  ∧ 256 ≠ frame_u8 response 31
  ∧ (get_machine_info self).1
    = Raise (if frame_u8 response 8 <? 2
             then Exception "Checksum error in device data packet"
             else IndexError)
  ∧ machine_info (get_machine_info self).2 = machine_info self.
Proof.
  intros Hin Hlen Hsum.
  assert (Hcrc : twos_complement_byte (sum_bytes (take 15 (drop 16 response)))
                 = 256) by (rewrite twos_complement_byte_eq; lia).
  pose proof (frame_u8_range response 31).
  split; [done|]. split; [lia|].
  rewrite (get_machine_info_run self response rest Hin Hlen). cbv zeta.
  rewrite Hcrc.
  destruct (frame_u8 response 8 <? 2); [|done].
  destruct (Z.eqb_spec 256 (frame_u8 response 31)); [lia|done].
Qed.

Lemma zero_sum_rejected_witness :
  twos_complement_byte (sum_bytes (take 15 (drop 16 (frame_of [])))) = 256
  ∧ 256 ≠ frame_u8 (frame_of []) 31
  ∧ (get_machine_info (device [frame_of []])).1
    = Raise (if frame_u8 (frame_of []) 8 <? 2
             then Exception "Checksum error in device data packet"
             else IndexError)
  ∧ machine_info (get_machine_info (device [frame_of []])).2
    = machine_info (device [frame_of []]).
Proof.
  apply (zero_sum_rejected (device [frame_of []]) (frame_of []) []);
    reflexivity.
Defined.

(** C10 as stated fails: [info_frame_bad_unit] is a 64-byte frame whose
    bytes at offsets 16 to 30 sum to 0, and [get_machine_info] fails on
    it with [IndexError] from the unit lookup, not with the checksum
    exception. *)
Lemma zero_sum_index_error :
  length info_frame_bad_unit = 64%nat
  ∧ sum_bytes (take 15 (drop 16 info_frame_bad_unit)) mod 256 = 0
  ∧ (get_machine_info (device [info_frame_bad_unit])).1 = Raise IndexError
  ∧ (get_machine_info (device [info_frame_bad_unit])).1
    ≠ Raise (Exception "Checksum error in device data packet").
Proof.
  split; [reflexivity|]. split; [reflexivity|].
  split; [vm_compute; reflexivity|]. vm_compute. discriminate.
Qed.

(** * The slot scans *)

Lemma decoded_batteries_cons (r : bytes) (rs : list bytes) :
  decoded_batteries (r :: rs)
  = (if checksum_valid r
     then match decode_battery r with
          | Ok battery => [battery]
          | Raise _ => []
          end
     else []) ++ decoded_batteries rs.
Proof.
  unfold decoded_batteries. simpl.
  destruct (checksum_valid r); [|reflexivity].
  destruct (decode_battery r); reflexivity.
Qed.



Lemma filter_length_le {A} (f : A → bool) (l : list A) :
  (length (List.filter f l) ≤ length l)%nat.
Proof.
  induction l as [|a l IH]; simpl; [lia|]. destruct (f a); simpl; lia.
Qed.

(** The battery scan over any list of slots, when every response is a
    64-byte frame that fails the checksum test or decodes. *)
Lemma get_battery_data_loop_run (slots : list Z) :
  ∀ (responses : list bytes) (batteries : list Battery.t) (self : MC3000)
    (rest : list bytes),
    length slots = length responses →
    Forall (λ slot, -128 ≤ slot ≤ 32) slots →
    Forall (λ r, length r = 64%nat) responses →
    Forall (λ r, checksum_valid r = true → ∃ b, decode_battery r = Ok b)
      responses →
    ep_in self = responses ++ rest →
    get_battery_data_loop slots batteries self
    = (Ok (batteries ++ decoded_batteries responses),
       mkMC3000 rest (ep_out self ++ (command_frame x5f <$> slots))
         (machine_info self)).
Proof.
  induction slots as [|slot slots IH];
    intros responses batteries self rest Hlen Hslots Hsize Hdec Hin.
  - destruct responses; [|discriminate Hlen]. simpl in Hin.
    destruct self as [i o m]. simpl in *. subst i.
    by rewrite !app_nil_r.
  - destruct responses as [|r rs]; [discriminate Hlen|].
    apply Forall_cons_1 in Hslots as [Hslot Hslots].
    apply Forall_cons_1 in Hsize as [Hr Hsize].
    apply Forall_cons_1 in Hdec as [Hd Hdec].
    rewrite (get_battery_data_step slot slots batteries self r (rs ++ rest))
      by done.
    cbv zeta. rewrite decoded_batteries_cons.
    destruct (checksum_valid r).
    + destruct Hd as [b ->]; [done|].
      rewrite (IH rs (batteries ++ [b]) _ rest); try done;
        [|simpl in Hlen; lia].
      unfold exchanged. simpl. by rewrite <- !app_assoc.
    + rewrite (IH rs batteries _ rest); try done; [|simpl in Hlen; lia].
      unfold exchanged. simpl. by rewrite <- !app_assoc.
Qed.



Example get_battery_data_three_of_four :
  Battery.slot <$> decoded_batteries
    [battery_frame x00 x03; battery_frame_corrupt; battery_frame x02 x00;
     battery_frame x03 x06]
  = [0; 2; 3].
Proof. vm_compute. reflexivity. Qed.

Example get_charging_progress_fixture :
  (λ p, (ProgressInfo.work p, ProgressInfo.caps p, ProgressInfo.dcaps p,
         ProgressInfo.work_time p, ProgressInfo.bat_tem p))
    <$> decode_progress (progress_frame x00 x03)
  = Ok (2, 1200, 1200, 9, 25).
Proof. vm_compute. reflexivity. Qed.

(** C6 as stated fails.  The second of four battery responses passes
    the checksum test and has the chemistry code 7: [get_battery_data]
    raises [KeyError] and returns no record, and the slots 2 and 3 are
    never queried.  The second of four progress responses has the
    chemistry code 9: its record is in the result, with the raw code. *)
Lemma unresolved_code_not_skipped :
  checksum_valid (battery_frame x01 x07) = true
  ∧ frame_u8 (battery_frame x01 x07) 3 = 7
  ∧ get_battery_data
      (device [battery_frame x00 x03; battery_frame x01 x07;
               battery_frame x02 x03; battery_frame x03 x03])
    = (Raise KeyError,
       mkMC3000 [battery_frame x02 x03; battery_frame x03 x03]
         [command_frame x5f 0; command_frame x5f 1] None)
  ∧ checksum_valid (progress_frame x01 x09) = true
  ∧ ∃ l : list ProgressInfo.t,
      (get_charging_progress all
         (device [progress_frame x00 x03; progress_frame x01 x09;
                  progress_frame x02 x03; progress_frame x03 x03])).1
      = Ok l
      ∧ (λ p, (ProgressInfo.slot p, ProgressInfo.type p)) <$> l
        = [(0, 3); (1, 9); (2, 3); (3, 3)].
Proof.
  split; [reflexivity|]. split; [reflexivity|].
  split; [vm_compute; reflexivity|]. split; [reflexivity|].
  eexists. split; [vm_compute; reflexivity|]. reflexivity.
Qed.

(** * Further properties of the checksum *)

Lemma getitem_out_of_range {A} (l : list A) (i : nat) :
  (length l ≤ i)%nat → getitem l (Z.of_nat i) = Raise IndexError.
Proof.
  intros H. unfold getitem.
  destruct (Z.ltb_spec (Z.of_nat i) 0) as [?|_]; [lia|].
  destruct (Z.ltb_spec (Z.of_nat i) 0) as [?|_]; [lia|].
  by rewrite Nat2Z.id, lookup_ge_None_2.
Qed.

Lemma byte_int_inj (b b' : byte) : byte_int b = byte_int b' → b = b'.
Proof.
  unfold byte_int. intros H. apply N2Z.inj in H.
  pose proof (Byte.of_to_N b) as E. rewrite H, Byte.of_to_N in E.
  by injection E.
Qed.

Lemma sum_bytes_insert (l : bytes) (i : nat) (b b' : byte) :
  l !! i = Some b →
  sum_bytes (<[i:=b']> l) = sum_bytes l - byte_int b + byte_int b'.
Proof.
  revert i. induction l as [|x l IH]; intros [|i] H; simpl in *; try done.
  - injection H as ->. lia.
  - rewrite (IH i H). lia.
Qed.

Lemma sum_bytes_permutation (l l' : bytes) :
  l ≡ₚ l' → sum_bytes l = sum_bytes l'.
Proof. induction 1; simpl; lia. Qed.

Lemma packet_checksum_out_of_range (data : bytes) :
  (length data < 63)%nat → packet_checksum data = Raise IndexError.
Proof.
  intros H. unfold packet_checksum, range.
  replace 63%nat with (length data + S (62 - length data))%nat by lia.
  rewrite seq_app, fmap_app, for_each_app.
  rewrite packet_checksum_loop by (simpl; lia).
  simpl. unfold bytes_getitem.
  by rewrite getitem_out_of_range.
Qed.

(** Extra: a buffer shorter than 63 bytes makes [packet_checksum] raise
    [IndexError]. *)
Theorem packet_checksum_short (data : bytes) :
  (length data < 63)%nat → packet_checksum data = Raise IndexError.
Proof. apply packet_checksum_out_of_range. Qed.

Lemma packet_checksum_short_witness :
  packet_checksum [x0f; x04; x5a] = Raise IndexError.
Proof. apply (packet_checksum_short [x0f; x04; x5a]). simpl. lia. Defined.

(** Extra: replacing one of the first 63 bytes by a different byte
    changes the checksum. *)
Theorem packet_checksum_one_byte (data : bytes) (i : nat) (b b' : byte) :
  (63 ≤ length data)%nat → (i < 63)%nat → data !! i = Some b → b' ≠ b →
  packet_checksum (<[i:=b']> data) ≠ packet_checksum data.
Proof.
  intros Hlen Hi Hb Hne.
  rewrite !packet_checksum_eq by (rewrite ?length_insert; lia).
  rewrite take_insert_lt by done.
  rewrite (sum_bytes_insert _ i b b') by (by rewrite lookup_take_lt).
  intros E. injection E as E. apply Hne, byte_int_inj.
  pose proof (byte_int_range b). pose proof (byte_int_range b').
  revert E. generalize (sum_bytes (take 63 data)). intros s E.
  Z.div_mod_to_equations. lia.
Qed.

Lemma packet_checksum_one_byte_witness :
  packet_checksum (<[16%nat:=x02]> info_frame) ≠ packet_checksum info_frame.
Proof.
  apply (packet_checksum_one_byte info_frame 16 x01 x02);
    [simpl; lia|lia|reflexivity|discriminate].
Defined.

(** Extra: the checksum does not see the order of the first 63 bytes:
    two buffers whose first 63 bytes are permutations of each other get
    the same checksum. *)
Theorem packet_checksum_permutation (data data' : bytes) :
  (63 ≤ length data)%nat → take 63 data ≡ₚ take 63 data' →
  packet_checksum data = packet_checksum data'.
Proof.
  intros Hlen Hperm.
  assert (Hlen' : (63 ≤ length data')%nat).
  { apply Permutation_length in Hperm. rewrite !length_take in Hperm. lia. }
  rewrite !packet_checksum_eq by done.
  by rewrite (sum_bytes_permutation _ _ Hperm).
Qed.

Lemma packet_checksum_permutation_witness :
  packet_checksum (x01 :: x02 :: replicate 62 x00)
  = packet_checksum (x02 :: x01 :: replicate 62 x00).
Proof.
  apply (packet_checksum_permutation (x01 :: x02 :: replicate 62 x00)
           (x02 :: x01 :: replicate 62 x00)); [simpl; lia|].
  simpl. apply perm_swap.
Defined.

(** * Further properties of the machine information request *)

Lemma machine_id_loop_short (response : bytes) :
  (length response < 32)%nat → machine_id_loop response = Raise IndexError.
Proof.
  intros Hlen. unfold machine_id_loop, range.
  destruct (le_lt_dec 16 (length response)) as [Hge|Hlt].
  - replace 16%nat
      with ((length response - 16) + S (15 - (length response - 16)))%nat
      at 1 by lia.
    rewrite seq_app, fmap_app, for_each_app.
    rewrite machine_id_loop_prefix by lia.
    simpl plus. simpl seq. rewrite fmap_cons. simpl.
    replace (16 + Z.of_nat (length response - 16))
      with (Z.of_nat (length response)) by lia.
    unfold bytes_getitem.
    rewrite (getitem_out_of_range response (length response)) by lia.
    destruct (_ <? 15); reflexivity.
  - assert (H16 : getitem response 16 = Raise IndexError)
      by (apply (getitem_out_of_range response 16); lia).
    simpl. unfold bytes_getitem.
    change (16 + Z.of_nat 0) with 16. by rewrite H16.
Qed.

Lemma machine_id_loop_first_32 (r r' : bytes) :
  (32 ≤ length r)%nat → take 32 r = take 32 r' →
  machine_id_loop r = machine_id_loop r'.
Proof.
  intros Hlen Heq.
  assert (Hlen' : (32 ≤ length r')%nat).
  { apply (f_equal length) in Heq. rewrite !length_take in Heq. lia. }
  rewrite !machine_id_loop_eq by done.
  rewrite !take_drop_commute. simpl plus.
  assert (H31 : take 31 r = take 31 r').
  { change (take 31 r) with (take (31 `min` 32) r).
    change (take 31 r') with (take (31 `min` 32) r').
    by rewrite <- !take_take, Heq. }
  by rewrite H31, Heq.
Qed.

(** What a successful call returns. *)
Lemma get_machine_info_ok (self : MC3000) (response : bytes)
    (rest : list bytes) (m : MachineInfo.t) :
  ep_in self = response :: rest → length response = 64%nat →
  (get_machine_info self).1 = Ok m →
  frame_u8 response 8 < 2
  ∧ m = machine_record response
          (nth (Z.to_nat (frame_u8 response 8)) TEM_UNIT EmptyString).
Proof.
  intros Hin Hlen. rewrite (get_machine_info_run self response rest Hin Hlen).
  cbv zeta. destruct (Z.ltb_spec (frame_u8 response 8) 2); [|done].
  destruct (negb _); [done|]. simpl. intros E. injection E as <-. done.
Qed.

Lemma unhex_hex2 (b : byte) (s : string) :
  unhex (hex2 b +:+ s) = byte_int b :: unhex s.
Proof.
  unfold hex2. rewrite !string_app_cons, string_app_empty_l. simpl. f_equal.
  destruct b; vm_compute; reflexivity.
Qed.

Lemma unhex_hex_of_bytes (l : bytes) :
  unhex (hex_of_bytes l) = byte_int <$> l.
Proof.
  induction l as [|b l IH]; [reflexivity|].
  simpl hex_of_bytes. by rewrite unhex_hex2, IH.
Qed.

Lemma byte_ints_inj (l l' : bytes) :
  byte_int <$> l = byte_int <$> l' → l = l'.
Proof.
  revert l'. induction l as [|b l IH]; intros [|b' l'] H; try done.
  injection H as Hb Hl. f_equal; [by apply byte_int_inj|by apply IH].
Qed.

(** Extra: a response of fewer than 32 bytes makes [get_machine_info]
    raise [IndexError]; the request has gone out, the response is
    consumed and the cached record is left as it was. *)
Theorem get_machine_info_short_response (self : MC3000) (response : bytes)
    (rest : list bytes) :
  ep_in self = response :: rest → (length response < 32)%nat →
  get_machine_info self
  = (Raise IndexError,
     mkMC3000 rest (ep_out self ++ [[x0f; x04; x5a; x00; x04; x5e; xff; xff]])
       (machine_info self)).
Proof.
  intros Hin Hlen.
  unfold get_machine_info, bind, send_raw, read, lift. simpl ep_in.
  by rewrite Hin, machine_id_loop_short.
Qed.

Lemma get_machine_info_short_response_witness :
  get_machine_info (device [take 31 info_frame])
  = (Raise IndexError,
     mkMC3000 []
       (ep_out (device [take 31 info_frame])
        ++ [[x0f; x04; x5a; x00; x04; x5e; xff; xff]])
       (machine_info (device [take 31 info_frame]))).
Proof.
  apply (get_machine_info_short_response (device [take 31 info_frame])
           (take 31 info_frame) []); [reflexivity|simpl; lia].
Defined.

(** Extra: [get_machine_info] reads only the first 32 bytes of the
    response: two responses of at least 32 bytes that agree on them
    give the same outcome and the same state. *)
Theorem get_machine_info_first_32 (r r' : bytes) (rest out : list bytes)
    (cached : option MachineInfo.t) :
  (32 ≤ length r)%nat → take 32 r = take 32 r' →
  get_machine_info (mkMC3000 (r :: rest) out cached)
  = get_machine_info (mkMC3000 (r' :: rest) out cached).
Proof.
  intros Hlen Heq.
  unfold get_machine_info, bind, send_raw, read, lift, slice_to. simpl.
  by rewrite (machine_id_loop_first_32 r r' Hlen Heq), Heq.
Qed.

Lemma get_machine_info_first_32_witness :
  get_machine_info (mkMC3000 [info_frame] [] None)
  = get_machine_info (mkMC3000 [take 32 info_frame] [] None).
Proof.
  apply (get_machine_info_first_32 info_frame (take 32 info_frame) [] [] None);
    [simpl; lia|reflexivity].
Defined.

Lemma get_machine_info_state (self : MC3000) (response : bytes)
    (rest : list bytes) :
  ep_in self = response :: rest →
  get_machine_info self
  = match (get_machine_info self).1 with
    | Ok m => (Ok m, mkMC3000 rest (ep_out self ++ [machine_info_request])
                       (Some m))
    | Raise e => (Raise e, exchanged self machine_info_request rest)
    end.
Proof.
  intros Hin.
  unfold get_machine_info, bind, send_raw, read, lift, raise, ret,
    set_machine_info, exchanged. simpl ep_in. rewrite Hin.
  destruct (machine_id_loop response) as [[crc machine_id]|]; [|done].
  destruct (struct.unpack _ _); [|done].
  destruct (MachineInfo_of _ _); [|done].
  destruct (negb _); done.
Qed.

(** Extra: whatever the response is, [get_machine_info] writes exactly
    its 8-byte request and consumes exactly that response; the cached
    record changes only when the call returns, and then it is the
    record returned. *)
Theorem get_machine_info_exchange (self : MC3000) (response : bytes)
    (rest : list bytes) :
  ep_in self = response :: rest →
  let out := get_machine_info self in
  ep_in out.2 = rest
  ∧ ep_out out.2 = ep_out self ++ [[x0f; x04; x5a; x00; x04; x5e; xff; xff]]
  ∧ match out.1 with
    | Ok m => machine_info out.2 = Some m
    | Raise _ => machine_info out.2 = machine_info self
    end.
Proof.
  intros Hin out. subst out.
  rewrite (get_machine_info_state self response rest Hin).
  by destruct (get_machine_info self).1.
Qed.

Lemma get_machine_info_exchange_witness :
  let out := get_machine_info (device [[x00; x01]; info_frame]) in
  ep_in out.2 = [info_frame]
  ∧ ep_out out.2
    = ep_out (device [[x00; x01]; info_frame])
      ++ [[x0f; x04; x5a; x00; x04; x5e; xff; xff]]
  ∧ match out.1 with
    | Ok m => machine_info out.2 = Some m
    | Raise _ => machine_info out.2
                 = machine_info (device [[x00; x01]; info_frame])
    end.
Proof.
  apply (get_machine_info_exchange (device [[x00; x01]; info_frame])
           [x00; x01] [info_frame]).
  reflexivity.
Defined.

(** Extra: the record returned for a 64-byte response takes its fields
    from fixed offsets: the four memory bytes at 3 to 6, the flags as
    tests of a byte against 1, the unit text from the selector at
    offset 8, the core type as the text that the six bytes at 16 to 21
    decode to as UTF-8, with a replacement character where they are not
    UTF-8, the customer id as a big-endian signed 16-bit number at 24
    and 25, the version bytes at 27 and 28, the reserved field as a
    signed byte at 30 and the checksum at 31. *)
Theorem get_machine_info_layout (self : MC3000) (response : bytes)
    (rest : list bytes) (m : MachineInfo.t) :
  ep_in self = response :: rest → length response = 64%nat →
  (get_machine_info self).1 = Ok m →
  MachineInfo.Sys_Mem1 m = frame_u8 response 3
  ∧ MachineInfo.Sys_Mem2 m = frame_u8 response 4
  ∧ MachineInfo.Sys_Mem3 m = frame_u8 response 5
  ∧ MachineInfo.Sys_Mem4 m = frame_u8 response 6
  ∧ MachineInfo.Sys_Advance m = (frame_u8 response 7 =? 1)
  ∧ MachineInfo.Sys_tUnit m
    = (if frame_u8 response 8 =? 0 then degree +:+ "C" else degree +:+ "F")
  ∧ MachineInfo.Sys_Buzzer_Tone m = frame_u8 response 9
  ∧ MachineInfo.Sys_Life_Hide m = (frame_u8 response 10 =? 1)
  ∧ MachineInfo.Sys_LiHv_Hide m = (frame_u8 response 11 =? 1)
  ∧ MachineInfo.Sys_Eneloop_Hide m = (frame_u8 response 12 =? 1)
  ∧ MachineInfo.Sys_NiZn_Hide m = (frame_u8 response 13 =? 1)
  ∧ MachineInfo.Sys_Lcd_time m = frame_u8 response 14
  ∧ MachineInfo.Sys_Min_Input m = frame_u8 response 15
  ∧ MachineInfo.core_type m
    = utf8_decode_replace (take 6 (drop 16 response))
  ∧ MachineInfo.upgrade_type m = frame_u8 response 22
  ∧ MachineInfo.is_encrypted m = (frame_u8 response 23 =? 1)
  ∧ MachineInfo.customer_id m
    = struct.signed 16 (256 * frame_u8 response 24 + frame_u8 response 25)
  ∧ MachineInfo.language_id m = frame_u8 response 26
  ∧ MachineInfo.software_version_hi m = frame_u8 response 27
  ∧ MachineInfo.software_version_lo m = frame_u8 response 28
  ∧ MachineInfo.hardware_version m = frame_u8 response 29
  ∧ MachineInfo.reserved m = struct.signed 8 (frame_u8 response 30)
  ∧ MachineInfo.checksum m = frame_u8 response 31.
Proof.
  intros Hin Hlen Hok.
  destruct (get_machine_info_ok self response rest m Hin Hlen Hok)
    as [Hunit ->].
  pose proof (frame_u8_range response 8).
  repeat split.
  assert (frame_u8 response 8 = 0 ∨ frame_u8 response 8 = 1) as [E|E] by lia;
    simpl; rewrite E; reflexivity.
Qed.

Lemma get_machine_info_layout_witness :
  ∃ m, (get_machine_info (device [info_frame_core])).1 = Ok m
       ∧ MachineInfo.core_type m = [0xFFFD; 77; 67; 51; 48; 48]
       ∧ MachineInfo.checksum m = 222.
Proof.
  eexists. split; [vm_compute; reflexivity|].
  destruct (get_machine_info_layout (device [info_frame_core])
              info_frame_core []
              (machine_record info_frame_core (degree +:+ "C")))
    as (_&_&_&_&_&_&_&_&_&_&_&_&_&Hc&_&_&_&_&_&_&_&_&Hs);
    [reflexivity|reflexivity|vm_compute; reflexivity|].
  split; [exact Hc|exact Hs].
Defined.

(** Extra: the machine id determines the sixteen bytes it is made of:
    two accepted 64-byte responses with the same machine id have the
    same bytes at offsets 16 to 31. *)
Theorem machine_id_determines_block (self self' : MC3000)
    (r r' : bytes) (rest rest' : list bytes) (m m' : MachineInfo.t) :
  ep_in self = r :: rest → length r = 64%nat →
  ep_in self' = r' :: rest' → length r' = 64%nat →
  (get_machine_info self).1 = Ok m → (get_machine_info self').1 = Ok m' →
  MachineInfo.machine_id m = MachineInfo.machine_id m' →
  take 16 (drop 16 r) = take 16 (drop 16 r').
Proof.
  intros Hin Hlen Hin' Hlen' Hok Hok' Hid.
  destruct (get_machine_info_ok self r rest m Hin Hlen Hok) as [_ ->].
  destruct (get_machine_info_ok self' r' rest' m' Hin' Hlen' Hok') as [_ ->].
  simpl in Hid. apply byte_ints_inj.
  by rewrite <- !unhex_hex_of_bytes, Hid.
Qed.

Lemma machine_id_determines_block_witness :
  take 16 (drop 16 info_frame)
  = take 16 (drop 16 (<[40%nat:=x07]> info_frame)).
Proof.
  apply (machine_id_determines_block
           (device [info_frame]) (device [<[40%nat:=x07]> info_frame])
           info_frame (<[40%nat:=x07]> info_frame) [] []
           (machine_record info_frame (degree +:+ "C"))
           (machine_record (<[40%nat:=x07]> info_frame) (degree +:+ "C")));
    try reflexivity; vm_compute; reflexivity.
Defined.

(** * Further properties of the commands *)

(** The three ways a call of [send] can end. *)
Lemma send_cases (cmd : bytes) (buffer : Z) (self : MC3000) :
  send cmd buffer self = (Ok tt, self)
  ∨ send cmd buffer self = (Raise StructError, self)
  ∨ ∃ op : byte,
      cmd = [op] ∧ (op = x5f ∨ op = x55)
      ∧ -128 ≤ buffer ∧ byte_int op + buffer ≤ 127
      ∧ send cmd buffer self
        = (Ok tt, mkMC3000 (ep_in self)
                    (ep_out self ++ [command_frame op buffer])
                    (machine_info self)).
Proof.
  assert (Hknown : ∀ op, op = x5f ∨ op = x55 →
            send [op] buffer self = (Raise StructError, self)
            ∨ ∃ op' : byte,
                [op] = [op'] ∧ (op' = x5f ∨ op' = x55)
                ∧ -128 ≤ buffer ∧ byte_int op' + buffer ≤ 127
                ∧ send [op] buffer self
                  = (Ok tt, mkMC3000 (ep_in self)
                              (ep_out self ++ [command_frame op' buffer])
                              (machine_info self))).
  { intros op Hop. rewrite send_run by done.
    destruct (Z.leb_spec (-128) buffer); [|by left].
    destruct (Z.leb_spec (byte_int op + buffer) 127); [|by left].
    right. exists op. auto. }
  destruct (decide (cmd = CMD_READ_CHARGER_DATA)) as [->|N1];
    [right; apply (Hknown x5f); auto|].
  destruct (decide (cmd = CMD_READ_PROGRESS_DATA)) as [->|N2];
    [right; apply (Hknown x55); auto|].
  left. unfold send.
  by rewrite (bool_decide_eq_false_2 _ N1), (bool_decide_eq_false_2 _ N2).
Qed.

Lemma signed_byte_round_trip (z : Z) :
  -128 ≤ z ≤ 127 → struct.signed 8 (byte_int (int_byte z)) = z.
Proof.
  intros H. rewrite byte_int_int_byte. unfold struct.signed.
  change (2 ^ (8 - 1)) with 128. change (2 ^ 8) with 256.
  destruct (Z.ltb_spec (z mod 256) 128); Z.div_mod_to_equations; lia.
Qed.

Lemma int_byte_inj (z z' : Z) :
  -128 ≤ z ≤ 127 → -128 ≤ z' ≤ 127 → int_byte z = int_byte z' → z = z'.
Proof.
  intros H H' E.
  rewrite <- (signed_byte_round_trip z), <- (signed_byte_round_trip z') by done.
  by rewrite E.
Qed.

(** Extra: whatever its arguments, [send] reads nothing from the device
    and leaves the cached record alone; it writes at most one frame,
    and when it raises, the error is [struct.error] and nothing was
    written. *)
Theorem send_effects (cmd : bytes) (buffer : Z) (self : MC3000) :
  let out := send cmd buffer self in
  ep_in out.2 = ep_in self
  ∧ machine_info out.2 = machine_info self
  ∧ (ep_out out.2 = ep_out self ∨ ∃ frame, ep_out out.2 = ep_out self ++ [frame])
  ∧ ∀ e, out.1 = Raise e → e = StructError ∧ out.2 = self.
Proof.
  destruct (send_cases cmd buffer self) as [E|[E|(op&_&_&_&_&E)]];
    rewrite E; simpl; (split; [done|]); (split; [done|]);
    (split; [eauto|]); intros e' He; try done.
  by injection He as <-.
Qed.

Lemma send_effects_witness :
  let out := send CMD_READ_CHARGER_DATA 40 (device [info_frame]) in
  ep_in out.2 = ep_in (device [info_frame])
  ∧ machine_info out.2 = machine_info (device [info_frame])
  ∧ (ep_out out.2 = ep_out (device [info_frame])
     ∨ ∃ frame, ep_out out.2 = ep_out (device [info_frame]) ++ [frame])
  ∧ ∀ e, out.1 = Raise e → e = StructError ∧ out.2 = device [info_frame].
Proof. apply (send_effects CMD_READ_CHARGER_DATA 40 (device [info_frame])). Defined.

(** Extra: in every frame that [send] writes, the byte at offset 5 is
    the sum modulo 256 of the opcode byte at offset 2 and the slot byte
    at offset 4. *)
Theorem send_frame_sum (cmd : bytes) (buffer : Z) (self : MC3000)
    (frame : bytes) :
  ep_out (send cmd buffer self).2 = ep_out self ++ [frame] →
  frame_u8 frame 5 = (frame_u8 frame 2 + frame_u8 frame 4) mod 256.
Proof.
  assert (Hnone : ep_out self ≠ ep_out self ++ [frame]).
  { intros E. apply (f_equal length) in E. rewrite length_app in E.
    simpl in E. lia. }
  destruct (send_cases cmd buffer self) as [E|[E|(op&_&_&_&_&E)]];
    rewrite E; simpl; intros Hout; try done.
  apply app_inv_head in Hout. injection Hout as <-.
  unfold frame_u8, command_frame. simpl.
  rewrite !byte_int_int_byte. by rewrite Zplus_mod_idemp_r.
Qed.

Lemma send_frame_sum_witness :
  frame_u8 (command_frame x55 (-3)) 5
  = (frame_u8 (command_frame x55 (-3)) 2
     + frame_u8 (command_frame x55 (-3)) 4) mod 256.
Proof.
  apply (send_frame_sum CMD_READ_PROGRESS_DATA (-3) (device [])).
  reflexivity.
Defined.

(** Extra: the frame tells the command: when two calls of [send] with
    known opcodes and slots in range write the same frame, the opcodes
    and the slots are the same. *)
Theorem send_injective (op op' : byte) (slot slot' : Z) (self : MC3000) :
  op = x5f ∨ op = x55 → op' = x5f ∨ op' = x55 →
  -128 ≤ slot → byte_int op + slot ≤ 127 →
  -128 ≤ slot' → byte_int op' + slot' ≤ 127 →
  ep_out (send [op] slot self).2 = ep_out (send [op'] slot' self).2 →
  op = op' ∧ slot = slot'.
Proof.
  intros Hop Hop' H1 H2 H1' H2'. rewrite !send_run by done.
  destruct (Z.leb_spec (-128) slot); [|lia].
  destruct (Z.leb_spec (byte_int op + slot) 127); [|lia].
  destruct (Z.leb_spec (-128) slot'); [|lia].
  destruct (Z.leb_spec (byte_int op' + slot') 127); [|lia].
  simpl. intros E. apply app_inv_head in E.
  injection E as Eop Eslot _. split; [done|].
  assert (0 < byte_int op) by (destruct Hop as [-> | ->]; done).
  assert (0 < byte_int op') by (destruct Hop' as [-> | ->]; done).
  apply int_byte_inj; [lia|lia|done].
Qed.

Lemma send_injective_witness : x5f = x5f ∧ 2 = 2.
Proof.
  apply (send_injective x5f x5f 2 2 (device []));
    [by left|by left|lia|change (byte_int x5f) with 95; lia|lia
    |change (byte_int x5f) with 95; lia|reflexivity].
Defined.

(** Extra: a frame written by [send] unpacks, with the format it was
    packed with, to the header, the opcode, the slot, the sum of opcode
    and slot, and the tail. *)
Theorem send_frame_unpack (op : byte) (slot : Z) (self : MC3000) :
  op = x5f ∨ op = x55 → -128 ≤ slot → byte_int op + slot ≤ 127 →
  ∃ frame : bytes,
    ep_out (send [op] slot self).2 = ep_out self ++ [frame]
    ∧ struct.unpack "2scxbb2s" frame
      = Ok [struct.VBytes CMD_PACKET_HEADER; struct.VBytes [op];
            struct.VInt slot; struct.VInt (byte_int op + slot);
            struct.VBytes CMD_PACKET_TAIL].
Proof.
  intros Hop H1 H2. rewrite send_run by done.
  destruct (Z.leb_spec (-128) slot); [|lia].
  destruct (Z.leb_spec (byte_int op + slot) 127); [|lia].
  assert (0 < byte_int op) by (destruct Hop as [-> | ->]; done).
  exists (command_frame op slot). split; [reflexivity|].
  assert (Hunpack :
    struct.unpack "2scxbb2s" (command_frame op slot)
    = Ok [struct.VBytes CMD_PACKET_HEADER; struct.VBytes [op];
          struct.VInt (struct.signed 8 (byte_int (int_byte slot)));
          struct.VInt (struct.signed 8
                         (byte_int (int_byte (byte_int op + slot))));
          struct.VBytes CMD_PACKET_TAIL]) by reflexivity.
  rewrite Hunpack, !signed_byte_round_trip by lia. reflexivity.
Qed.

Lemma send_frame_unpack_witness :
  ∃ frame : bytes,
    ep_out (send [x5f] 3 (device [])).2 = ep_out (device []) ++ [frame]
    ∧ struct.unpack "2scxbb2s" frame
      = Ok [struct.VBytes CMD_PACKET_HEADER; struct.VBytes [x5f];
            struct.VInt 3; struct.VInt (byte_int x5f + 3);
            struct.VBytes CMD_PACKET_TAIL].
Proof.
  apply (send_frame_unpack x5f 3 (device []));
    [by left|lia|change (byte_int x5f) with 95; lia].
Defined.

(** Extra: [start] and [stop] each write one 7-byte frame, read nothing
    and never raise, and no call of [send] can write either of these
    frames. *)
Theorem start_stop_frames (self : MC3000) (cmd : bytes) (buffer : Z) :
  start self
  = (Ok tt, mkMC3000 (ep_in self)
              (ep_out self ++ [[x0f; x03; x05; x00; x05; xff; xff]])
              (machine_info self))
  ∧ stop self
    = (Ok tt, mkMC3000 (ep_in self)
                (ep_out self ++ [[x0f; x03; xfe; x00; xfe; xff; xff]])
                (machine_info self))
  ∧ ep_out (send cmd buffer self).2 ≠ ep_out (start self).2
  ∧ ep_out (send cmd buffer self).2 ≠ ep_out (stop self).2.
Proof.
  split; [reflexivity|]. split; [reflexivity|].
  assert (Hnone : ∀ frame : bytes, ep_out self ≠ ep_out self ++ [frame]).
  { intros frame E. apply (f_equal length) in E. rewrite length_app in E.
    simpl in E. lia. }
  destruct (send_cases cmd buffer self) as [E|[E|(op&_&_&_&_&E)]];
    rewrite E; simpl; split; try apply Hnone.
  all: intros Hout; apply app_inv_head in Hout; discriminate Hout.
Qed.

(** * Further properties of the slot scans *)

Lemma getitem_trailing_any (r : bytes) :
  (0 < length r)%nat →
  bytes_getitem r (-1) = Ok (frame_u8 r (length r - 1)).
Proof.
  intros H. unfold bytes_getitem, getitem, frame_u8.
  change (-1 <? 0) with true. cbv iota.
  destruct (Z.ltb_spec (-1 + Z.of_nat (length r)) 0) as [?|_]; [lia|].
  replace (Z.to_nat (-1 + Z.of_nat (length r))) with (length r - 1)%nat by lia.
  destruct (lookup_lt_is_Some_2 r (length r - 1)) as [b Hb]; [lia|].
  rewrite Hb. simpl. by rewrite (nth_lookup_Some _ _ _ _ Hb).
Qed.

Lemma unpack_wrong_size (fmt : string) (r : bytes) :
  fmt = CHARGE_DATA_STRUCT ∨ fmt = PROGRESS_STATUS_STRUCT →
  length r ≠ 64%nat → struct.unpack fmt r = Raise StructError.
Proof.
  intros Hfmt Hlen. unfold struct.unpack.
  destruct (struct.parse fmt) as [[o items]|] eqn:E; [|done].
  assert (Hsize : struct.calcsize_items items = 64%nat).
  { destruct Hfmt as [-> | ->]; vm_compute in E; by injection E as <- <-. }
  rewrite Hsize. destruct (negb (struct.supported o items)); [done|].
  by destruct (Nat.eqb_spec (length r) 64).
Qed.

(** One round of either slot loop, for a response of any length. *)
Lemma slot_round (cmd : bytes) (fmt : string) (op : byte) (slot : Z)
    (self : MC3000) (r : bytes) (rest : list bytes) :
  ep_in self = r :: rest → send cmd slot self
  = (Ok tt, mkMC3000 (ep_in self) (ep_out self ++ [command_frame op slot])
              (machine_info self)) →
  ∀ {A B} (decode : list struct.value → result A) (loop : list A → M B)
      (skip : M B) (batteries : list A),
    (_ <- send cmd slot ;;
     response <- read 64 ;;
     last <- lift (bytes_getitem response (-1)) ;;
     crc <- lift (packet_checksum response) ;;
     if negb (last =? crc) then skip
     else
       data <- lift (struct.unpack fmt response) ;;
       battery <- lift (decode data) ;;
       loop (batteries ++ [battery]))%method self
    = let self' := exchanged self (command_frame op slot) rest in
      match bytes_getitem r (-1), packet_checksum r with
      | Raise e, _ => (Raise e, self')
      | Ok _, Raise e => (Raise e, self')
      | Ok last, Ok crc =>
          if negb (last =? crc) then skip self'
          else match (data <~ struct.unpack fmt r ;; decode data)%py with
               | Ok battery => loop (batteries ++ [battery]) self'
               | Raise e => (Raise e, self')
               end
      end.
Proof.
  intros Hin Hsend A B decode loop skip batteries.
  unfold bind at 1. rewrite Hsend.
  unfold bind at 1, read at 1. simpl ep_in. rewrite Hin.
  unfold bind, lift, exchanged. simpl.
  destruct (bytes_getitem r (-1)); [|done].
  destruct (packet_checksum r); [|done].
  destruct (negb _); [done|].
  destruct (struct.unpack fmt r); [|done]. simpl.
  destruct (decode _); done.
Qed.

Lemma send_in_range (op : byte) (slot : Z) (self : MC3000) :
  op = x5f ∨ op = x55 → -128 ≤ slot → byte_int op + slot ≤ 127 →
  send [op] slot self
  = (Ok tt, mkMC3000 (ep_in self) (ep_out self ++ [command_frame op slot])
              (machine_info self)).
Proof.
  intros Hop H1 H2. rewrite send_run by done.
  destruct (Z.leb_spec (-128) slot); [|lia].
  by destruct (Z.leb_spec (byte_int op + slot) 127); [|lia].
Qed.

(** Extra: a response of fewer than 63 bytes makes either slot scan
    raise [IndexError] at that slot, after its command went out. *)
Theorem slot_scan_short_response (slot : Z) (slots : list Z)
    (self : MC3000) (r : bytes) (rest : list bytes) :
  ep_in self = r :: rest → (length r < 63)%nat → -128 ≤ slot ≤ 32 →
  (∀ batteries,
     get_battery_data_loop (slot :: slots) batteries self
     = (Raise IndexError, exchanged self (command_frame x5f slot) rest))
  ∧ (∀ batteries,
       get_charging_progress_loop (slot :: slots) batteries self
       = (Raise IndexError, exchanged self (command_frame x55 slot) rest)).
Proof.
  intros Hin Hlen Hslot.
  assert (Hraise : match bytes_getitem r (-1), packet_checksum r with
                   | Ok _, Ok _ => False
                   | Raise e, _ | Ok _, Raise e => e = IndexError
                   end).
  { rewrite packet_checksum_out_of_range by done.
    destruct r as [|b r]; [reflexivity|].
    by rewrite getitem_trailing_any by (simpl; lia). }
  split; intros batteries; simpl.
  - rewrite (slot_round CMD_READ_CHARGER_DATA CHARGE_DATA_STRUCT x5f slot
               self r rest Hin)
      by (apply send_in_range; [auto|lia|change (byte_int x5f) with 95; lia]).
    cbv zeta.
    destruct (bytes_getitem r (-1)), (packet_checksum r); try done;
      by rewrite Hraise.
  - rewrite (slot_round CMD_READ_PROGRESS_DATA PROGRESS_STATUS_STRUCT x55 slot
               self r rest Hin)
      by (apply send_in_range; [auto|lia|change (byte_int x55) with 85; lia]).
    cbv zeta.
    destruct (bytes_getitem r (-1)), (packet_checksum r); try done;
      by rewrite Hraise.
Qed.

Lemma slot_scan_short_response_witness :
  (∀ batteries,
     get_battery_data_loop [0; 1] batteries (device [[]; info_frame])
     = (Raise IndexError,
        exchanged (device [[]; info_frame]) (command_frame x5f 0) [info_frame]))
  ∧ (∀ batteries,
       get_charging_progress_loop [0; 1] batteries (device [[]; info_frame])
       = (Raise IndexError,
          exchanged (device [[]; info_frame]) (command_frame x55 0)
            [info_frame])).
Proof.
  apply (slot_scan_short_response 0 [1] (device [[]; info_frame]) []
           [info_frame]); [reflexivity|simpl; lia|lia].
Defined.

(** Extra: a response of 63 bytes, or of more than 64, is skipped when
    its last byte differs from the checksum of its first 63 bytes, and
    makes the scan raise [struct.error] when they agree. *)
Theorem slot_scan_wrong_size (slot : Z) (slots : list Z)
    (self : MC3000) (r : bytes) (rest : list bytes) :
  ep_in self = r :: rest → (63 ≤ length r)%nat → length r ≠ 64%nat →
  -128 ≤ slot ≤ 32 →
  let agree :=
    frame_u8 r (length r - 1) =? sum_bytes (take 63 r) mod 256 in
  (∀ batteries,
     get_battery_data_loop (slot :: slots) batteries self
     = let self' := exchanged self (command_frame x5f slot) rest in
       if agree then (Raise StructError, self')
       else get_battery_data_loop slots batteries self')
  ∧ (∀ batteries,
       get_charging_progress_loop (slot :: slots) batteries self
       = let self' := exchanged self (command_frame x55 slot) rest in
         if agree then (Raise StructError, self')
         else get_charging_progress_loop slots batteries self').
Proof.
  intros Hin Hge Hne Hslot agree.
  split; intros batteries; simpl.
  - rewrite (slot_round CMD_READ_CHARGER_DATA CHARGE_DATA_STRUCT x5f slot
               self r rest Hin)
      by (apply send_in_range; [auto|lia|change (byte_int x5f) with 95; lia]).
    cbv zeta. rewrite getitem_trailing_any, packet_checksum_eq by lia.
    fold agree. destruct agree; [|done]. simpl.
    by rewrite unpack_wrong_size by auto.
  - rewrite (slot_round CMD_READ_PROGRESS_DATA PROGRESS_STATUS_STRUCT x55 slot
               self r rest Hin)
      by (apply send_in_range; [auto|lia|change (byte_int x55) with 85; lia]).
    cbv zeta. rewrite getitem_trailing_any, packet_checksum_eq by lia.
    fold agree. destruct agree; [|done]. simpl.
    by rewrite unpack_wrong_size by auto.
Qed.

Lemma slot_scan_wrong_size_witness :
  let r := replicate 65 x00 in
  let agree :=
    frame_u8 r (length r - 1) =? sum_bytes (take 63 r) mod 256 in
  (∀ batteries,
     get_battery_data_loop [0] batteries (device [r])
     = let self' := exchanged (device [r]) (command_frame x5f 0) [] in
       if agree then (Raise StructError, self')
       else get_battery_data_loop [] batteries self')
  ∧ (∀ batteries,
       get_charging_progress_loop [0] batteries (device [r])
       = let self' := exchanged (device [r]) (command_frame x55 0) [] in
         if agree then (Raise StructError, self')
         else get_charging_progress_loop [] batteries self').
Proof.
  apply (slot_scan_wrong_size 0 [] (device [replicate 65 x00])
           (replicate 65 x00) []);
    [reflexivity|simpl; lia|simpl; lia|lia].
Defined.

Lemma decode_battery_ok_iff (r : bytes) :
  length r = 64%nat →
  (∃ b, decode_battery r = Ok b)
  ↔ frame_u8 r 3 ≤ 6 ∧ frame_u8 r 4 ≤ 4 ∧ frame_u8 r 21 ≤ 3
    ∧ frame_u8 r 29 ≤ 1.
Proof.
  intros Hlen. rewrite decode_battery_eq by done.
  pose proof (frame_u8_range r 3). pose proof (frame_u8_range r 4).
  pose proof (frame_u8_range r 21). pose proof (frame_u8_range r 29).
  destruct (decide (0 ≤ frame_u8 r 3 ≤ 6)) as [H3|H3];
    [|rewrite BATTERY_TYPE_missing by done; split; [by intros [??]|lia]].
  destruct (BATTERY_TYPE_present _ H3) as [type ->].
  destruct (decide (0 ≤ frame_u8 r 4 ≤ 4)) as [H4|H4];
    [|simpl; rewrite BATTERY_MODE_missing by done; split; [by intros [??]|lia]].
  destruct (BATTERY_MODE_present _ H4) as [mode ->].
  destruct (decide (0 ≤ frame_u8 r 21 ≤ 3)) as [H21|H21];
    [|simpl; rewrite CYCLE_MODE_missing by done; split; [by intros [??]|lia]].
  destruct (CYCLE_MODE_present _ H21) as [cycle ->].
  simpl. rewrite TEM_UNIT_getitem by lia.
  destruct (Z.ltb_spec (frame_u8 r 29) 2); simpl.
  - split; [lia|eauto].
  - split; [by intros [??]|lia].
Qed.

(** When the battery scan returns, every response that passed the
    checksum test decoded. *)
Lemma get_battery_data_loop_ok (slots : list Z) :
  ∀ (responses : list bytes) (batteries : list Battery.t) (self : MC3000)
    (rest : list bytes) (l : list Battery.t),
    length slots = length responses →
    Forall (λ slot, -128 ≤ slot ≤ 32) slots →
    Forall (λ r, length r = 64%nat) responses →
    ep_in self = responses ++ rest →
    (get_battery_data_loop slots batteries self).1 = Ok l →
    Forall (λ r, checksum_valid r = true → ∃ b, decode_battery r = Ok b)
      responses.
Proof.
  induction slots as [|slot slots IH];
    intros responses batteries self rest l Hlen Hslots Hsize Hin Hok.
  - destruct responses; [constructor|discriminate Hlen].
  - destruct responses as [|r rs]; [discriminate Hlen|].
    apply Forall_cons_1 in Hslots as [Hslot Hslots].
    apply Forall_cons_1 in Hsize as [Hr Hsize].
    rewrite (get_battery_data_step slot slots batteries self r (rs ++ rest))
      in Hok by done.
    cbv zeta in Hok. destruct (checksum_valid r) eqn:Ev.
    + destruct (decode_battery r) as [b|e] eqn:Ed; [|discriminate Hok].
      constructor; [intros _; by exists b|].
      eapply (IH rs _ _ rest l); [| | | |exact Hok]; try done.
      simpl in Hlen. lia.
    + constructor; [simpl; intros Hv; congruence|].
      eapply (IH rs _ _ rest l); [| | | |exact Hok]; try done.
      simpl in Hlen. lia.
Qed.

(** Extra: on four 64-byte responses [get_battery_data] returns a list
    exactly when every response that passes the checksum test has its
    chemistry code at most 6, its mode code at most 4, its cycle-mode
    code at most 3 and its unit selector at most 1. *)
Theorem get_battery_data_returns_iff (self : MC3000) (r0 r1 r2 r3 : bytes)
    (rest : list bytes) :
  ep_in self = [r0; r1; r2; r3] ++ rest →
  Forall (λ r, length r = 64%nat) [r0; r1; r2; r3] →
  (∃ l, (get_battery_data self).1 = Ok l)
  ↔ Forall (λ r, checksum_valid r = true →
                 frame_u8 r 3 ≤ 6 ∧ frame_u8 r 4 ≤ 4 ∧ frame_u8 r 21 ≤ 3
                 ∧ frame_u8 r 29 ≤ 1) [r0; r1; r2; r3].
Proof.
  intros Hin Hsize.
  assert (Hslots : Forall (λ slot, -128 ≤ slot ≤ 32) (range 4))
    by (unfold range; simpl; repeat constructor; lia).
  split.
  - intros [l Hl].
    pose proof (get_battery_data_loop_ok (range 4) [r0; r1; r2; r3] [] self
                  rest l eq_refl Hslots Hsize Hin Hl) as Hdec.
    rewrite Forall_forall in Hdec, Hsize. apply Forall_forall.
    intros r Hr Hvalid. apply decode_battery_ok_iff; auto.
  - intros Hcodes. eexists. unfold get_battery_data.
    rewrite (get_battery_data_loop_run (range 4) [r0; r1; r2; r3] [] self rest);
      try done.
    rewrite Forall_forall in Hcodes, Hsize. apply Forall_forall.
    intros r Hr Hvalid. apply decode_battery_ok_iff; auto.
Qed.

Lemma get_battery_data_returns_iff_witness :
  let responses :=
    [battery_frame x00 x03; battery_frame_corrupt; battery_frame x02 x00;
     battery_frame x03 x06] in
  (∃ l, (get_battery_data (device responses)).1 = Ok l)
  ↔ Forall (λ r, checksum_valid r = true →
                 frame_u8 r 3 ≤ 6 ∧ frame_u8 r 4 ≤ 4 ∧ frame_u8 r 21 ≤ 3
                 ∧ frame_u8 r 29 ≤ 1) responses.
Proof.
  apply (get_battery_data_returns_iff
           (device [battery_frame x00 x03; battery_frame_corrupt;
                    battery_frame x02 x00; battery_frame x03 x06])
           (battery_frame x00 x03) battery_frame_corrupt
           (battery_frame x02 x00) (battery_frame x03 x06) []);
    [reflexivity|repeat constructor].
Defined.

Lemma decoded_batteries_elem (responses : list bytes) (b : Battery.t) :
  b ∈ decoded_batteries responses →
  ∃ r, r ∈ responses ∧ checksum_valid r = true ∧ decode_battery r = Ok b.
Proof.
  unfold decoded_batteries. rewrite list_elem_of_omap.
  intros (r & Hr & Hb). exists r. split; [done|].
  destruct (checksum_valid r); [|done].
  destruct (decode_battery r); [|done]. by injection Hb as ->.
Qed.

Lemma get_battery_data_result (self : MC3000) (r0 r1 r2 r3 : bytes)
    (rest : list bytes) (l : list Battery.t) :
  ep_in self = [r0; r1; r2; r3] ++ rest →
  Forall (λ r, length r = 64%nat) [r0; r1; r2; r3] →
  (get_battery_data self).1 = Ok l →
  l = decoded_batteries [r0; r1; r2; r3].
Proof.
  intros Hin Hsize Hl.
  assert (Hslots : Forall (λ slot, -128 ≤ slot ≤ 32) (range 4))
    by (unfold range; simpl; repeat constructor; lia).
  pose proof (get_battery_data_loop_ok (range 4) [r0; r1; r2; r3] [] self
                rest l eq_refl Hslots Hsize Hin Hl) as Hdec.
  unfold get_battery_data in Hl.
  rewrite (get_battery_data_loop_run (range 4) [r0; r1; r2; r3] [] self rest)
    in Hl by done.
  simpl in Hl. by injection Hl as <-.
Qed.

(** Extra: every record that [get_battery_data] returns for four
    64-byte responses comes from a response that passed the checksum
    test.  Its slot is the byte at offset 1 of that response, whatever
    slot was asked for; its numbers come from fixed offsets, the
    two-byte ones as big-endian signed values; and its type, mode,
    cycle mode and unit are the table entries of the bytes at offsets
    3, 4, 21 and 29, so they are among the names the tables hold. *)
Theorem get_battery_data_records (self : MC3000) (r0 r1 r2 r3 : bytes)
    (rest : list bytes) (l : list Battery.t) (b : Battery.t) :
  ep_in self = [r0; r1; r2; r3] ++ rest →
  Forall (λ r, length r = 64%nat) [r0; r1; r2; r3] →
  (get_battery_data self).1 = Ok l → b ∈ l →
  ∃ r, r ∈ [r0; r1; r2; r3] ∧ checksum_valid r = true
       ∧ Battery.slot b = frame_u8 r 1
       ∧ Battery.work b = frame_u8 r 2
       ∧ BATTERY_TYPE !! frame_u8 r 3 = Some (Battery.type b)
       ∧ BATTERY_MODE !! frame_u8 r 4 = Some (Battery.mode b)
       ∧ Battery.caps b = frame_s16 r 5
       ∧ Battery.cur b = frame_s16 r 7
       ∧ Battery.dCur b = frame_s16 r 9
       ∧ Battery.cut_volt b = frame_s16 r 11
       ∧ Battery.end_volt b = frame_s16 r 13
       ∧ Battery.end_cur b = frame_s16 r 15
       ∧ Battery.end_dcur b = frame_s16 r 17
       ∧ Battery.cycle_count b = frame_u8 r 19
       ∧ Battery.cycle_delay b = frame_u8 r 20
       ∧ CYCLE_MODE !! frame_u8 r 21 = Some (Battery.cycle_mode b)
       ∧ Battery.peak_sense b = frame_u8 r 22
       ∧ Battery.trickle b = frame_u8 r 23
       ∧ Battery.hold_volt b = frame_s16 r 24
       ∧ Battery.cut_temp b = frame_u8 r 26
       ∧ Battery.cut_time b = frame_s16 r 27
       ∧ TEM_UNIT !! Z.to_nat (frame_u8 r 29) = Some (Battery.tem_unit b)
       ∧ Battery.checksum b = frame_u8 r 63
       ∧ Battery.type b
         ∈ ["LiIon"; "LiFe"; "LiHV"; "NiMH"; "NiCd"; "NiZn"; "Eneloop"]
       ∧ Battery.mode b
         ∈ ["Charging"; "Refreshing"; "Storing"; "Discharging"; "Cycling"]
       ∧ Battery.cycle_mode b ∈ ["C>D"; "C>D>C"; "D>C"; "D>C>C"]
       ∧ Battery.tem_unit b ∈ [degree +:+ "C"; degree +:+ "F"].
Proof.
  intros Hin Hsize Hl Hb.
  rewrite (get_battery_data_result self r0 r1 r2 r3 rest l Hin Hsize Hl) in Hb.
  apply decoded_batteries_elem in Hb as (r & Hr & Hvalid & Hdec).
  exists r. split; [done|]. split; [done|].
  assert (Hlen : length r = 64%nat)
    by (rewrite Forall_forall in Hsize; auto).
  rewrite decode_battery_eq in Hdec by done.
  unfold dict_getitem in Hdec.
  pose proof (frame_u8_range r 29) as H29.
  destruct (BATTERY_TYPE !! frame_u8 r 3) as [type|] eqn:Et; [|done].
  destruct (BATTERY_MODE !! frame_u8 r 4) as [mode|] eqn:Em; [|done].
  destruct (CYCLE_MODE !! frame_u8 r 21) as [cycle|] eqn:Ec; [|done].
  simpl in Hdec. rewrite TEM_UNIT_getitem in Hdec by lia.
  destruct (Z.ltb_spec (frame_u8 r 29) 2); [|done].
  assert (Eu : TEM_UNIT !! Z.to_nat (frame_u8 r 29)
               = Some (nth (Z.to_nat (frame_u8 r 29)) TEM_UNIT EmptyString)).
  { assert (frame_u8 r 29 = 0 ∨ frame_u8 r 29 = 1) as [-> | ->] by lia;
      reflexivity. }
  simpl in Hdec. injection Hdec as <-. simpl.
  repeat (split; [done|]).
  split; [|split; [|split]].
  - apply elem_of_list_to_map_2 in Et.
    apply (list_elem_of_fmap_2 snd) in Et. exact Et.
  - apply elem_of_list_to_map_2 in Em.
    apply (list_elem_of_fmap_2 snd) in Em. exact Em.
  - apply elem_of_list_to_map_2 in Ec.
    apply (list_elem_of_fmap_2 snd) in Ec. exact Ec.
  - by apply list_elem_of_lookup_2 in Eu.
Qed.

Lemma get_battery_data_records_witness :
  ∃ r, r ∈ [battery_frame x00 x03; battery_frame_corrupt;
            battery_frame x02 x00; battery_frame x03 x06]
       ∧ checksum_valid r = true
       ∧ Battery.slot sample_battery = frame_u8 r 1
       ∧ Battery.work sample_battery = frame_u8 r 2
       ∧ BATTERY_TYPE !! frame_u8 r 3 = Some (Battery.type sample_battery)
       ∧ BATTERY_MODE !! frame_u8 r 4 = Some (Battery.mode sample_battery)
       ∧ Battery.caps sample_battery = frame_s16 r 5
       ∧ Battery.cur sample_battery = frame_s16 r 7
       ∧ Battery.dCur sample_battery = frame_s16 r 9
       ∧ Battery.cut_volt sample_battery = frame_s16 r 11
       ∧ Battery.end_volt sample_battery = frame_s16 r 13
       ∧ Battery.end_cur sample_battery = frame_s16 r 15
       ∧ Battery.end_dcur sample_battery = frame_s16 r 17
       ∧ Battery.cycle_count sample_battery = frame_u8 r 19
       ∧ Battery.cycle_delay sample_battery = frame_u8 r 20
       ∧ CYCLE_MODE !! frame_u8 r 21 = Some (Battery.cycle_mode sample_battery)
       ∧ Battery.peak_sense sample_battery = frame_u8 r 22
       ∧ Battery.trickle sample_battery = frame_u8 r 23
       ∧ Battery.hold_volt sample_battery = frame_s16 r 24
       ∧ Battery.cut_temp sample_battery = frame_u8 r 26
       ∧ Battery.cut_time sample_battery = frame_s16 r 27
       ∧ TEM_UNIT !! Z.to_nat (frame_u8 r 29)
         = Some (Battery.tem_unit sample_battery)
       ∧ Battery.checksum sample_battery = frame_u8 r 63
       ∧ Battery.type sample_battery
         ∈ ["LiIon"; "LiFe"; "LiHV"; "NiMH"; "NiCd"; "NiZn"; "Eneloop"]
       ∧ Battery.mode sample_battery
         ∈ ["Charging"; "Refreshing"; "Storing"; "Discharging"; "Cycling"]
       ∧ Battery.cycle_mode sample_battery ∈ ["C>D"; "C>D>C"; "D>C"; "D>C>C"]
       ∧ Battery.tem_unit sample_battery ∈ [degree +:+ "C"; degree +:+ "F"].
Proof.
  apply (get_battery_data_records
           (device [battery_frame x00 x03; battery_frame_corrupt;
                    battery_frame x02 x00; battery_frame x03 x06])
           (battery_frame x00 x03) battery_frame_corrupt
           (battery_frame x02 x00) (battery_frame x03 x06) []
           (decoded_batteries
              [battery_frame x00 x03; battery_frame_corrupt;
               battery_frame x02 x00; battery_frame x03 x06])
           sample_battery).
  - reflexivity.
  - repeat constructor.
  - vm_compute. reflexivity.
  - vm_compute. apply list_elem_of_here.
Defined.

Lemma decoded_progress_cons (r : bytes) (rs : list bytes) :
  length r = 64%nat →
  decoded_progress (r :: rs)
  = (if checksum_valid r
     then match decode_progress r with
          | Ok pinfo => [pinfo]
          | Raise _ => []
          end
     else []) ++ decoded_progress rs.
Proof.
  intros Hlen. unfold decoded_progress. simpl.
  destruct (checksum_valid r); [|reflexivity].
  by rewrite decode_progress_eq.
Qed.

(** The progress scan over any list of slots, when every response is a
    64-byte frame. *)
Lemma get_charging_progress_loop_run (slots : list Z) :
  ∀ (responses : list bytes) (batteries : list ProgressInfo.t)
    (self : MC3000) (rest : list bytes),
    length slots = length responses →
    Forall (λ slot, -128 ≤ slot ≤ 42) slots →
    Forall (λ r, length r = 64%nat) responses →
    ep_in self = responses ++ rest →
    get_charging_progress_loop slots batteries self
    = (Ok (batteries ++ decoded_progress responses),
       mkMC3000 rest (ep_out self ++ (command_frame x55 <$> slots))
         (machine_info self)).
Proof.
  induction slots as [|slot slots IH];
    intros responses batteries self rest Hlen Hslots Hsize Hin.
  - destruct responses; [|discriminate Hlen]. simpl in Hin.
    destruct self as [i o m]. simpl in *. subst i.
    by rewrite !app_nil_r.
  - destruct responses as [|r rs]; [discriminate Hlen|].
    apply Forall_cons_1 in Hslots as [Hslot Hslots].
    apply Forall_cons_1 in Hsize as [Hr Hsize].
    rewrite (get_charging_progress_step slot slots batteries self r
               (rs ++ rest)) by done.
    cbv zeta. rewrite decoded_progress_cons by done.
    destruct (checksum_valid r).
    + rewrite decode_progress_eq by done.
      rewrite (IH rs _ _ rest); try done; [|simpl in Hlen; lia].
      unfold exchanged. simpl. by rewrite <- !app_assoc.
    + rewrite (IH rs batteries _ rest); try done; [|simpl in Hlen; lia].
      unfold exchanged. simpl. by rewrite <- !app_assoc.
Qed.

Lemma decoded_progress_length (rs : list bytes) :
  Forall (λ r, length r = 64%nat) rs →
  length (decoded_progress rs) = length (List.filter checksum_valid rs).
Proof.
  induction 1 as [|r rs Hr _ IH]; [reflexivity|].
  rewrite decoded_progress_cons by done. simpl List.filter.
  destruct (checksum_valid r); [|exact IH].
  rewrite decode_progress_eq by done. simpl. by rewrite IH.
Qed.

Lemma decoded_progress_elem (responses : list bytes) (p : ProgressInfo.t) :
  p ∈ decoded_progress responses →
  ∃ r, r ∈ responses ∧ checksum_valid r = true ∧ decode_progress r = Ok p.
Proof.
  unfold decoded_progress. rewrite list_elem_of_omap.
  intros (r & Hr & Hp). exists r. split; [done|].
  destruct (checksum_valid r); [|done].
  destruct (decode_progress r); [|done]. by injection Hp as ->.
Qed.

Lemma frame_s16_range (r : bytes) (i : nat) :
  -32768 ≤ frame_s16 r i ≤ 32767.
Proof.
  unfold frame_s16, struct.signed.
  pose proof (frame_u8_range r i). pose proof (frame_u8_range r (S i)).
  change (2 ^ (16 - 1)) with 32768. change (2 ^ 16) with 65536.
  destruct (Z.ltb_spec (256 * frame_u8 r i + frame_u8 r (S i)) 32768); lia.
Qed.

Lemma land_0x7fff (z : Z) :
  -32768 ≤ z ≤ 32767 →
  Z.land z 0x7fff = if 0 <=? z then z else z + 32768.
Proof.
  intros H. change 0x7fff with (Z.ones 15). rewrite Z.land_ones by lia.
  change (2 ^ 15) with 32768.
  destruct (Z.leb_spec 0 z); Z.div_mod_to_equations; lia.
Qed.

(** Extra: on four 64-byte responses [get_charging_progress('all')]
    never raises: it sends the progress command for the slots 0 to 3 in
    order, consumes the four responses and returns one record for each
    response that passes the checksum test, in order. *)
Theorem get_charging_progress_all_returns (self : MC3000)
    (r0 r1 r2 r3 : bytes) (rest : list bytes) :
  ep_in self = [r0; r1; r2; r3] ++ rest →
  Forall (λ r, length r = 64%nat) [r0; r1; r2; r3] →
  get_charging_progress all self
  = (Ok (decoded_progress [r0; r1; r2; r3]),
     mkMC3000 rest
       (ep_out self ++ [command_frame x55 0; command_frame x55 1;
                        command_frame x55 2; command_frame x55 3])
       (machine_info self))
  ∧ length (decoded_progress [r0; r1; r2; r3])
    = length (List.filter checksum_valid [r0; r1; r2; r3]).
Proof.
  intros Hin Hsize. split; [|by apply decoded_progress_length].
  unfold get_charging_progress.
  rewrite (get_charging_progress_loop_run (range 4) [r0; r1; r2; r3] [] self
             rest); try done.
  unfold range. simpl. repeat constructor; lia.
Qed.

Lemma get_charging_progress_all_returns_witness :
  let responses :=
    [progress_frame x00 x03; battery_frame_corrupt; progress_frame x02 x09;
     progress_frame x03 x03] in
  get_charging_progress all (device responses)
  = (Ok (decoded_progress responses),
     mkMC3000 []
       (ep_out (device responses)
        ++ [command_frame x55 0; command_frame x55 1;
            command_frame x55 2; command_frame x55 3])
       (machine_info (device responses)))
  ∧ length (decoded_progress responses)
    = length (List.filter checksum_valid responses).
Proof.
  apply (get_charging_progress_all_returns
           (device [progress_frame x00 x03; battery_frame_corrupt;
                    progress_frame x02 x09; progress_frame x03 x03])
           (progress_frame x00 x03) battery_frame_corrupt
           (progress_frame x02 x09) (progress_frame x03 x03) []);
    [reflexivity|repeat constructor].
Defined.

(** Extra: [get_charging_progress] with one slot and a 64-byte
    response.  For a slot from -128 to 42 it sends one command and
    returns the record of the response, or the empty list when the
    response fails the checksum test.  For any other slot it raises
    [struct.error] before anything is sent or read. *)
Theorem get_charging_progress_one_slot (slot : Z) (self : MC3000)
    (r : bytes) (rest : list bytes) :
  ep_in self = r :: rest → length r = 64%nat →
  (-128 ≤ slot ≤ 42 →
   get_charging_progress (one_slot slot) self
   = (Ok (decoded_progress [r]), exchanged self (command_frame x55 slot) rest)
   ∧ (length (decoded_progress [r]) ≤ 1)%nat)
  ∧ (slot < -128 ∨ 42 < slot →
     get_charging_progress (one_slot slot) self = (Raise StructError, self)).
Proof.
  intros Hin Hlen. split.
  - intros Hslot. unfold get_charging_progress.
    rewrite (get_charging_progress_loop_run [slot] [r] [] self rest);
      try done; [|repeat constructor; lia..].
    split; [reflexivity|].
    rewrite decoded_progress_length by (repeat constructor; done).
    apply (filter_length_le checksum_valid [r]).
  - intros Hslot. unfold get_charging_progress. simpl.
    unfold bind at 1. change CMD_READ_PROGRESS_DATA with [x55].
    rewrite send_run by auto. change (byte_int x55) with 85.
    destruct (Z.leb_spec (-128) slot); [|reflexivity].
    destruct (Z.leb_spec (85 + slot) 127); [lia|reflexivity].
Qed.

Lemma get_charging_progress_one_slot_witness :
  (-128 ≤ 2 ≤ 42 →
   get_charging_progress (one_slot 2) (device [progress_frame x02 x03])
   = (Ok (decoded_progress [progress_frame x02 x03]),
      exchanged (device [progress_frame x02 x03]) (command_frame x55 2) [])
   ∧ (length (decoded_progress [progress_frame x02 x03]) ≤ 1)%nat)
  ∧ (2 < -128 ∨ 42 < 2 →
     get_charging_progress (one_slot 2) (device [progress_frame x02 x03])
     = (Raise StructError, device [progress_frame x02 x03])).
Proof.
  apply (get_charging_progress_one_slot 2 (device [progress_frame x02 x03])
           (progress_frame x02 x03) []); reflexivity.
Defined.

(** Extra: every record that [get_charging_progress('all')] returns
    for four 64-byte responses comes from a response that passed the
    checksum test.  Its temperature lies between 0 and 32767: it is the
    raw signed field when that is not negative and the raw field plus
    32768 otherwise.  Its work time lies between -32768 and 32766 and
    is 0 exactly when the raw field is 0 or 1.  Its slot, type, status
    and work codes are the raw bytes, between 0 and 255. *)
Theorem get_charging_progress_records (self : MC3000) (r0 r1 r2 r3 : bytes)
    (rest : list bytes) (l : list ProgressInfo.t) (p : ProgressInfo.t) :
  ep_in self = [r0; r1; r2; r3] ++ rest →
  Forall (λ r, length r = 64%nat) [r0; r1; r2; r3] →
  (get_charging_progress all self).1 = Ok l → p ∈ l →
  ∃ r, r ∈ [r0; r1; r2; r3] ∧ checksum_valid r = true
       ∧ ProgressInfo.bat_tem p
         = (if 0 <=? frame_s16 r 14 then frame_s16 r 14
            else frame_s16 r 14 + 32768)
       ∧ 0 ≤ ProgressInfo.bat_tem p ≤ 32767
       ∧ -32768 ≤ ProgressInfo.work_time p ≤ 32766
       ∧ (ProgressInfo.work_time p = 0
          ↔ frame_s16 r 6 = 0 ∨ frame_s16 r 6 = 1)
       ∧ ProgressInfo.slot p = frame_u8 r 1
       ∧ ProgressInfo.type p = frame_u8 r 2
       ∧ ProgressInfo.status p = frame_u8 r 4
       ∧ ProgressInfo.work p = frame_u8 r 5
       ∧ 0 ≤ ProgressInfo.slot p ≤ 255
       ∧ ProgressInfo.voltage p = frame_s16 r 8
       ∧ ProgressInfo.current p = frame_s16 r 10
       ∧ ProgressInfo.caps p = frame_s16 r 12
       ∧ ProgressInfo.inner_resistance p = frame_s16 r 16
       ∧ ProgressInfo.caps_decimal p = frame_u8 r 24
       ∧ ProgressInfo.checksum p = frame_u8 r 63.
Proof.
  intros Hin Hsize Hl Hp.
  assert (Hrun : get_charging_progress all self
                 = (Ok ([] ++ decoded_progress [r0; r1; r2; r3]),
                    mkMC3000 rest
                      (ep_out self ++ (command_frame x55 <$> range 4))
                      (machine_info self))).
  { apply get_charging_progress_loop_run; try done.
    unfold range. simpl. repeat constructor; lia. }
  assert (l = decoded_progress [r0; r1; r2; r3]) as ->
    by (rewrite Hrun in Hl; cbn [fst] in Hl; injection Hl as <-;
        reflexivity).
  apply decoded_progress_elem in Hp as (r & Hr & Hvalid & Hdec).
  exists r. split; [done|]. split; [done|].
  assert (Hlen : length r = 64%nat)
    by (rewrite Forall_forall in Hsize; auto).
  rewrite decode_progress_eq in Hdec by done. injection Hdec as <-. simpl.
  pose proof (frame_s16_range r 14). pose proof (frame_s16_range r 6).
  pose proof (frame_u8_range r 1).
  rewrite land_0x7fff by done.
  split; [done|]. split; [destruct (Z.leb_spec 0 (frame_s16 r 14)); lia|].
  split; [destruct (Z.ltb_spec 0 (frame_s16 r 6)); lia|].
  split; [destruct (Z.ltb_spec 0 (frame_s16 r 6)); lia|].
  repeat (split; [done|]). split; [lia|]. done.
Qed.

Lemma get_charging_progress_records_witness :
  ∃ r, r ∈ [progress_frame x00 x03; battery_frame_corrupt;
            progress_frame x02 x09; progress_frame x03 x03]
       ∧ checksum_valid r = true
       ∧ ProgressInfo.bat_tem sample_progress
         = (if 0 <=? frame_s16 r 14 then frame_s16 r 14
            else frame_s16 r 14 + 32768)
       ∧ 0 ≤ ProgressInfo.bat_tem sample_progress ≤ 32767
       ∧ -32768 ≤ ProgressInfo.work_time sample_progress ≤ 32766
       ∧ (ProgressInfo.work_time sample_progress = 0
          ↔ frame_s16 r 6 = 0 ∨ frame_s16 r 6 = 1)
       ∧ ProgressInfo.slot sample_progress = frame_u8 r 1
       ∧ ProgressInfo.type sample_progress = frame_u8 r 2
       ∧ ProgressInfo.status sample_progress = frame_u8 r 4
       ∧ ProgressInfo.work sample_progress = frame_u8 r 5
       ∧ 0 ≤ ProgressInfo.slot sample_progress ≤ 255
       ∧ ProgressInfo.voltage sample_progress = frame_s16 r 8
       ∧ ProgressInfo.current sample_progress = frame_s16 r 10
       ∧ ProgressInfo.caps sample_progress = frame_s16 r 12
       ∧ ProgressInfo.inner_resistance sample_progress = frame_s16 r 16
       ∧ ProgressInfo.caps_decimal sample_progress = frame_u8 r 24
       ∧ ProgressInfo.checksum sample_progress = frame_u8 r 63.
Proof.
  apply (get_charging_progress_records
           (device [progress_frame x00 x03; battery_frame_corrupt;
                    progress_frame x02 x09; progress_frame x03 x03])
           (progress_frame x00 x03) battery_frame_corrupt
           (progress_frame x02 x09) (progress_frame x03 x03) []
           (decoded_progress
              [progress_frame x00 x03; battery_frame_corrupt;
               progress_frame x02 x09; progress_frame x03 x03])
           sample_progress).
  - reflexivity.
  - repeat constructor.
  - vm_compute. reflexivity.
  - vm_compute. apply list_elem_of_here.
Defined.

(** * The main block *)

Lemma slot_table_snoc {A} (slot : A → Z) (l : list A) (x : A) :
  slot_table slot (l ++ [x]) = <[slot x + 1 := x]> (slot_table slot l).
Proof. unfold slot_table. by rewrite foldl_app. Qed.

Lemma slot_table_last {A} (slot : A → Z) (l : list A) (k : Z) :
  slot_table slot l !! k = last (filter (λ x, slot x + 1 = k) l).
Proof.
  induction l as [|x l IH] using rev_ind; [reflexivity|].
  rewrite slot_table_snoc, filter_app, lookup_insert.
  rewrite filter_cons, filter_nil.
  destruct (decide (slot x + 1 = k)) as [E|N].
  - by rewrite last_snoc.
  - by rewrite app_nil_r.
Qed.

(** Extra: what the main block's tables hold under a key [k] is the
    last record of the list whose slot is [k - 1]; a key without such a
    record is absent. *)
Theorem slot_table_lookup {A} (slot : A → Z) (l : list A) (k : Z) :
  slot_table slot l !! k = last (filter (λ x, slot x + 1 = k) l).
Proof. apply slot_table_last. Qed.

(** Extra: when the slots of the records are pairwise different, the
    table has one entry for each record, found under its slot plus
    one. *)
Theorem slot_table_distinct {A} (slot : A → Z) (l : list A) :
  NoDup (slot <$> l) →
  size (slot_table slot l) = length l
  ∧ ∀ x, x ∈ l → slot_table slot l !! (slot x + 1) = Some x.
Proof.
  induction l as [|x l IH] using rev_ind; intros Hnd.
  - split; [reflexivity|]. intros x Hx. by apply elem_of_nil in Hx.
  - rewrite fmap_app in Hnd. apply NoDup_app in Hnd as (Hl & Hx & _).
    destruct (IH Hl) as [Hsize Hlook].
    assert (Hfresh : slot_table slot l !! (slot x + 1) = None).
    { rewrite slot_table_last.
      destruct (last _) as [y|] eqn:E; [|done]. exfalso.
      apply last_Some_elem_of, list_elem_of_filter in E as [Ey Hy].
      apply (Hx (slot y)); [by apply list_elem_of_fmap_2|].
      replace (slot y) with (slot x) by lia. simpl. apply list_elem_of_here. }
    rewrite slot_table_snoc. split.
    + rewrite map_size_insert_None by done. rewrite length_app, Hsize.
      simpl. lia.
    + intros y Hy. apply elem_of_app in Hy as [Hy|Hy].
      * rewrite lookup_insert_ne; [by apply Hlook|].
        intros E. rewrite E, (Hlook y Hy) in Hfresh. done.
      * apply list_elem_of_singleton in Hy as ->. apply lookup_insert_eq.
Qed.

Lemma slot_table_distinct_witness :
  size (slot_table Battery.slot
          (decoded_batteries
             [battery_frame x00 x03; battery_frame_corrupt;
              battery_frame x02 x00; battery_frame x03 x06]))
  = length (decoded_batteries
              [battery_frame x00 x03; battery_frame_corrupt;
               battery_frame x02 x00; battery_frame x03 x06])
  ∧ ∀ x, x ∈ decoded_batteries
               [battery_frame x00 x03; battery_frame_corrupt;
                battery_frame x02 x00; battery_frame x03 x06] →
         slot_table Battery.slot
           (decoded_batteries
              [battery_frame x00 x03; battery_frame_corrupt;
               battery_frame x02 x00; battery_frame x03 x06])
         !! (Battery.slot x + 1) = Some x.
Proof.
  apply (slot_table_distinct Battery.slot
           (decoded_batteries
              [battery_frame x00 x03; battery_frame_corrupt;
               battery_frame x02 x00; battery_frame x03 x06])).
  apply (bool_decide_unpack _). vm_compute. exact I.
Defined.

Lemma get_machine_info_accept (self : MC3000) (r : bytes)
    (rest : list bytes) :
  ep_in self = r :: rest → length r = 64%nat → frame_u8 r 8 < 2 →
  twos_complement_byte (sum_bytes (take 15 (drop 16 r))) = frame_u8 r 31 →
  let m := machine_record r (nth (Z.to_nat (frame_u8 r 8)) TEM_UNIT EmptyString)
  in get_machine_info self
     = (Ok m, mkMC3000 rest (ep_out self ++ [machine_info_request]) (Some m)).
Proof.
  intros Hin Hlen Hunit Hcrc.
  rewrite (get_machine_info_run self r rest Hin Hlen). cbv zeta.
  destruct (Z.ltb_spec (frame_u8 r 8) 2); [|lia].
  by rewrite Hcrc, Z.eqb_refl.
Qed.

(** Extra: when the first machine information request fails, the
    queries of [__init__], and with them the main block, fail with the
    same error: the one request is all that was written, no slot was
    queried and only that one response was consumed. *)
Theorem main_stops_at_first_failure (self : MC3000) (r : bytes)
    (rest : list bytes) (e : exn) :
  ep_in self = r :: rest → (get_machine_info self).1 = Raise e →
  let self' :=
    mkMC3000 rest (ep_out self ++ [[x0f; x04; x5a; x00; x04; x5e; xff; xff]])
      (machine_info self) in
  init_queries self = (Raise e, self') ∧ main self = (Raise e, self').
Proof.
  intros Hin He self'.
  pose proof (get_machine_info_state self r rest Hin) as Hs.
  rewrite He in Hs.
  unfold main, init_queries, bind. by rewrite Hs.
Qed.

Lemma main_stops_at_first_failure_witness :
  let self := device [info_frame_bad_unit; info_frame] in
  let self' :=
    mkMC3000 [info_frame]
      (ep_out self ++ [[x0f; x04; x5a; x00; x04; x5e; xff; xff]])
      (machine_info self) in
  init_queries self = (Raise IndexError, self')
  ∧ main self = (Raise IndexError, self').
Proof.
  apply (main_stops_at_first_failure
           (device [info_frame_bad_unit; info_frame])
           info_frame_bad_unit [info_frame] IndexError);
    [reflexivity|vm_compute; reflexivity].
Defined.

(** Extra: a full run of the main block.  When the device answers with
    an accepted machine information frame, four battery frames, a second
    accepted machine information frame, four more battery frames and
    four progress frames, all of 64 bytes and the battery frames that
    pass the checksum test decodable, the block writes fourteen
    requests: the machine information request and the four charger
    commands, twice, then the four progress commands.  Its values are
    the second machine record and the tables of the second battery
    answers and of the progress answers; the first five answers are
    only consumed. *)
Theorem main_run (self : MC3000) (i1 i2 : bytes)
    (b0 b1 b2 b3 c0 c1 c2 c3 p0 p1 p2 p3 : bytes) (rest : list bytes) :
  ep_in self
  = i1 :: [b0; b1; b2; b3] ++ i2 :: [c0; c1; c2; c3] ++ [p0; p1; p2; p3]
    ++ rest →
  Forall (λ r, length r = 64%nat
               ∧ frame_u8 r 8 < 2
               ∧ twos_complement_byte (sum_bytes (take 15 (drop 16 r)))
                 = frame_u8 r 31) [i1; i2] →
  Forall (λ r, length r = 64%nat
               ∧ (checksum_valid r = true → ∃ b, decode_battery r = Ok b))
    [b0; b1; b2; b3; c0; c1; c2; c3] →
  Forall (λ r, length r = 64%nat) [p0; p1; p2; p3] →
  let info :=
    machine_record i2 (nth (Z.to_nat (frame_u8 i2 8)) TEM_UNIT EmptyString) in
  let request := [x0f; x04; x5a; x00; x04; x5e; xff; xff] in
  let charger := command_frame x5f <$> [0; 1; 2; 3] in
  let progress := command_frame x55 <$> [0; 1; 2; 3] in
  main self
  = (Ok (info,
         slot_table Battery.slot (decoded_batteries [c0; c1; c2; c3]),
         slot_table ProgressInfo.slot (decoded_progress [p0; p1; p2; p3])),
     mkMC3000 rest
       (ep_out self ++ [request] ++ charger ++ [request] ++ charger
        ++ progress)
       (Some info)).
Proof.
  intros Hin Hinfo Hbat Hprog info request charger progress.
  apply Forall_cons_1 in Hinfo as [(Hl1 & Hu1 & Hc1) Hinfo].
  apply Forall_cons_1 in Hinfo as [(Hl2 & Hu2 & Hc2) _].
  assert (Hslots : Forall (λ slot, -128 ≤ slot ≤ 32) (range 4))
    by (unfold range; simpl; repeat constructor; lia).
  assert (Hslots' : Forall (λ slot, -128 ≤ slot ≤ 42) (range 4))
    by (unfold range; simpl; repeat constructor; lia).
  assert (Hb : Forall (λ r, length r = 64%nat) [b0; b1; b2; b3]
               ∧ Forall (λ r, checksum_valid r = true
                              → ∃ b, decode_battery r = Ok b) [b0; b1; b2; b3]
               ∧ Forall (λ r, length r = 64%nat) [c0; c1; c2; c3]
               ∧ Forall (λ r, checksum_valid r = true
                              → ∃ b, decode_battery r = Ok b) [c0; c1; c2; c3]).
  { clear -Hbat.
    do 8 (apply Forall_cons_1 in Hbat as [[??] Hbat]).
    repeat split; repeat constructor; assumption. }
  destruct Hb as (Hbl & Hbd & Hcl & Hcd).
  unfold main, init_queries. unfold bind at 1. unfold bind at 1.
  rewrite (get_machine_info_accept self i1 _ Hin Hl1 Hu1 Hc1). cbv zeta.
  unfold bind at 1. unfold get_battery_data at 1.
  rewrite (get_battery_data_loop_run (range 4) [b0; b1; b2; b3] [] _
             (i2 :: [c0; c1; c2; c3] ++ [p0; p1; p2; p3] ++ rest));
    try done.
  unfold ret at 1. unfold bind at 1.
  match goal with
  | |- context [get_machine_info ?s] =>
      rewrite (get_machine_info_accept s i2
                 ([c0; c1; c2; c3] ++ [p0; p1; p2; p3] ++ rest))
        by (reflexivity || assumption)
  end. cbv zeta.
  unfold bind at 1. unfold get_battery_data at 1.
  rewrite (get_battery_data_loop_run (range 4) [c0; c1; c2; c3] [] _
             ([p0; p1; p2; p3] ++ rest)); try done.
  unfold bind at 1. unfold get_charging_progress.
  rewrite (get_charging_progress_loop_run (range 4) [p0; p1; p2; p3] [] _
             rest); try done.
  unfold ret. simpl. rewrite <- !app_assoc. reflexivity.
Qed.

Lemma main_run_witness :
  let info := machine_record info_frame (degree +:+ "C") in
  let request := [x0f; x04; x5a; x00; x04; x5e; xff; xff] in
  let charger := command_frame x5f <$> [0; 1; 2; 3] in
  let progress := command_frame x55 <$> [0; 1; 2; 3] in
  main (device main_responses)
  = (Ok (info,
         slot_table Battery.slot
           (decoded_batteries
              [battery_frame x00 x03; battery_frame_corrupt;
               battery_frame x02 x00; battery_frame x03 x06]),
         slot_table ProgressInfo.slot
           (decoded_progress
              [progress_frame x00 x03; progress_frame x01 x03;
               progress_frame x02 x00; progress_frame x03 x06])),
     mkMC3000 []
       (ep_out (device main_responses) ++ [request] ++ charger ++ [request]
        ++ charger ++ progress)
       (Some info)).
Proof.
  apply (main_run (device main_responses) info_frame info_frame
           (battery_frame x00 x03) (battery_frame x01 x03)
           (battery_frame x02 x00) (battery_frame x03 x06)
           (battery_frame x00 x03) battery_frame_corrupt
           (battery_frame x02 x00) (battery_frame x03 x06)
           (progress_frame x00 x03) (progress_frame x01 x03)
           (progress_frame x02 x00) (progress_frame x03 x06) []).
  - reflexivity.
  - repeat constructor.
  - repeat constructor; intros _; eexists; vm_compute; reflexivity.
  - repeat constructor.
Defined.

(** * The text of the core type *)

Example utf8_decode_replace_invalid_start :
  utf8_decode_replace [xff; x4d; x43; x33; x30; x30]
  = [0xFFFD; 77; 67; 51; 48; 48].
Proof. reflexivity. Qed.

Example utf8_decode_replace_three_bytes :
  utf8_decode_replace [xe2; x82; xac] = [0x20AC].
Proof. reflexivity. Qed.

Example utf8_decode_replace_bad_continuation :
  utf8_decode_replace [xe2; x28; xa1] = [0xFFFD; 0x28; 0xFFFD].
Proof. reflexivity. Qed.

Example utf8_decode_replace_cut_short :
  utf8_decode_replace [x41; xf0; x9f; x98] = [0x41; 0xFFFD].
Proof. reflexivity. Qed.

Example utf8_decode_replace_surrogate :
  utf8_decode_replace [xed; xa0; x80] = [0xFFFD; 0xFFFD; 0xFFFD].
Proof. reflexivity. Qed.

Example utf8_decode_replace_ascii :
  utf8_decode_replace [x4d; x43; x33; x30; x30; x30]
  = [77; 67; 51; 48; 48; 48].
Proof. reflexivity. Qed.

(** An accepted response whose core type is not UTF-8: the returned
    text starts with the replacement character. *)
Example get_machine_info_core_type_replaced :
  MachineInfo.core_type <$> (get_machine_info (device [info_frame_core])).1
  = Ok [0xFFFD; 77; 67; 51; 48; 48].
Proof. vm_compute. reflexivity. Qed.

(** * The records of the progress scan *)

Lemma decoded_progress_frames (rs : list bytes) :
  Forall (λ r, length r = 64%nat) rs →
  Forall2 (λ r p, decode_progress r = Ok p)
    (List.filter checksum_valid rs) (decoded_progress rs).
Proof.
  induction 1 as [|r rs Hr _ IH]; [constructor|].
  rewrite decoded_progress_cons by done. simpl List.filter.
  destruct (checksum_valid r); [|exact IH].
  rewrite decode_progress_eq by done. simpl.
  constructor; [by rewrite decode_progress_eq|exact IH].
Qed.

Lemma filter_64 (rs : list bytes) :
  Forall (λ r, length r = 64%nat) rs →
  Forall (λ r, length r = 64%nat) (List.filter checksum_valid rs).
Proof.
  induction 1 as [|r rs Hr _ IH]; [constructor|].
  simpl. destruct (checksum_valid r); [by constructor|exact IH].
Qed.

(** What [get_charging_progress] returns when every response is a
    64-byte frame. *)
Lemma get_charging_progress_run (battery_slot : battery_slot_arg)
    (self : MC3000) (responses rest : list bytes) :
  let slots :=
    match battery_slot with
    | all => range 4
    | one_slot slot => [slot]
    end in
  ep_in self = responses ++ rest → length responses = length slots →
  Forall (λ slot, -128 ≤ slot ≤ 42) slots →
  Forall (λ r, length r = 64%nat) responses →
  get_charging_progress battery_slot self
  = (Ok (decoded_progress responses),
     mkMC3000 rest (ep_out self ++ (command_frame x55 <$> slots))
       (machine_info self)).
Proof.
  intros slots Hin Hlen Hslots Hsize. unfold get_charging_progress.
  fold slots.
  by rewrite (get_charging_progress_loop_run slots responses [] self rest).
Qed.

(** C8: [get_charging_progress], for all slots or for one, when every
    response is a 64-byte frame.  The call returns a list that holds
    one record for each response that passes the checksum test, in
    order.  In the record of such a response the discharge capacity is
    the capacity field when the work code is 2 and 0 otherwise, the
    work time is the raw field minus one when the raw field is positive
    and the raw field otherwise (so 0 stays 0), and the temperature is
    the raw field and-ed with [0x7fff]. *)
Theorem progress_corrections (battery_slot : battery_slot_arg)
    (self : MC3000) (responses rest : list bytes) :
  let slots :=
    match battery_slot with
    | all => range 4
    | one_slot slot => [slot]
    end in
  ep_in self = responses ++ rest → length responses = length slots →
  Forall (λ slot, -128 ≤ slot ≤ 42) slots →
  Forall (λ r, length r = 64%nat) responses →
  ∃ l : list ProgressInfo.t,
    get_charging_progress battery_slot self
    = (Ok l, mkMC3000 rest (ep_out self ++ (command_frame x55 <$> slots))
               (machine_info self))
    ∧ Forall2
        (λ response pinfo,
           ProgressInfo.work pinfo = frame_u8 response 5
           ∧ ProgressInfo.caps pinfo = frame_s16 response 12
           ∧ ProgressInfo.dcaps pinfo
             = (if frame_u8 response 5 =? 2 then frame_s16 response 12 else 0)
           ∧ ProgressInfo.work_time pinfo
             = (if 0 <? frame_s16 response 6 then frame_s16 response 6 - 1
                else frame_s16 response 6)
           ∧ (frame_s16 response 6 = 0 → ProgressInfo.work_time pinfo = 0)
           ∧ ProgressInfo.bat_tem pinfo
             = Z.land (frame_s16 response 14) 0x7fff)
        (List.filter checksum_valid responses) l.
Proof.
  intros slots Hin Hlen Hslots Hsize.
  exists (decoded_progress responses). split.
  - by apply get_charging_progress_run.
  - pose proof (filter_64 responses Hsize) as H64.
    pose proof (decoded_progress_frames responses Hsize) as Hdec.
    induction Hdec as [|r p rs ps Hp _ IH]; [constructor|].
    apply Forall_cons_1 in H64 as [Hr H64].
    constructor; [|by apply IH].
    rewrite decode_progress_eq in Hp by done. injection Hp as <-. simpl.
    repeat split. intros ->. reflexivity.
Qed.

Lemma progress_corrections_witness :
  let responses :=
    [progress_frame x00 x03; battery_frame_corrupt; progress_frame x02 x09;
     progress_frame x03 x03] in
  ∃ l : list ProgressInfo.t,
    get_charging_progress all (device responses)
    = (Ok l, mkMC3000 []
               (ep_out (device responses) ++ (command_frame x55 <$> range 4))
               (machine_info (device responses)))
    ∧ Forall2
        (λ response pinfo,
           ProgressInfo.work pinfo = frame_u8 response 5
           ∧ ProgressInfo.caps pinfo = frame_s16 response 12
           ∧ ProgressInfo.dcaps pinfo
             = (if frame_u8 response 5 =? 2 then frame_s16 response 12 else 0)
           ∧ ProgressInfo.work_time pinfo
             = (if 0 <? frame_s16 response 6 then frame_s16 response 6 - 1
                else frame_s16 response 6)
           ∧ (frame_s16 response 6 = 0 → ProgressInfo.work_time pinfo = 0)
           ∧ ProgressInfo.bat_tem pinfo
             = Z.land (frame_s16 response 14) 0x7fff)
        (List.filter checksum_valid responses) l.
Proof.
  apply (progress_corrections all
           (device [progress_frame x00 x03; battery_frame_corrupt;
                    progress_frame x02 x09; progress_frame x03 x03])
           [progress_frame x00 x03; battery_frame_corrupt;
            progress_frame x02 x09; progress_frame x03 x03] []).
  - reflexivity.
  - reflexivity.
  - unfold range. simpl. repeat constructor; lia.
  - repeat constructor.
Defined.

(** * Codes without a table entry *)

(** The error of a battery response whose codes do not all resolve:
    the three dictionaries are looked up before the unit tuple. *)
Lemma decode_battery_error (r : bytes) :
  length r = 64%nat →
  ¬ (frame_u8 r 3 ≤ 6 ∧ frame_u8 r 4 ≤ 4 ∧ frame_u8 r 21 ≤ 3
     ∧ frame_u8 r 29 ≤ 1) →
  decode_battery r
  = Raise (if (frame_u8 r 3 <=? 6) && (frame_u8 r 4 <=? 4)
              && (frame_u8 r 21 <=? 3)
           then IndexError else KeyError).
Proof.
  intros Hlen Hbad. rewrite decode_battery_eq by done.
  pose proof (frame_u8_range r 3). pose proof (frame_u8_range r 4).
  pose proof (frame_u8_range r 21). pose proof (frame_u8_range r 29).
  destruct (Z.leb_spec (frame_u8 r 3) 6);
    [|by rewrite BATTERY_TYPE_missing by lia].
  destruct (BATTERY_TYPE_present (frame_u8 r 3)) as [type ->]; [lia|].
  destruct (Z.leb_spec (frame_u8 r 4) 4);
    [|by simpl; rewrite BATTERY_MODE_missing by lia].
  destruct (BATTERY_MODE_present (frame_u8 r 4)) as [mode ->]; [lia|].
  destruct (Z.leb_spec (frame_u8 r 21) 3);
    [|by simpl; rewrite CYCLE_MODE_missing by lia].
  destruct (CYCLE_MODE_present (frame_u8 r 21)) as [cycle ->]; [lia|].
  simpl. rewrite TEM_UNIT_getitem by lia.
  destruct (Z.ltb_spec (frame_u8 r 29) 2); [lia|reflexivity].
Qed.

(** The battery scan stops at the first response that passes the
    checksum test and does not decode. *)
Lemma get_battery_data_loop_abort (before : list Z) :
  ∀ (pre : list bytes) (batteries : list Battery.t) (self : MC3000)
    (slot : Z) (after : list Z) (bad : bytes) (rest : list bytes) (e : exn),
    length before = length pre →
    Forall (λ slot, -128 ≤ slot ≤ 32) before → -128 ≤ slot ≤ 32 →
    Forall (λ r, length r = 64%nat) pre →
    Forall (λ r, checksum_valid r = true → ∃ b, decode_battery r = Ok b) pre →
    length bad = 64%nat → checksum_valid bad = true →
    decode_battery bad = Raise e →
    ep_in self = pre ++ bad :: rest →
    get_battery_data_loop (before ++ slot :: after) batteries self
    = (Raise e,
       mkMC3000 rest
         (ep_out self ++ (command_frame x5f <$> before ++ [slot]))
         (machine_info self)).
Proof.
  induction before as [|s before IH];
    intros pre batteries self slot after bad rest e Hlen Hslots Hslot Hsize
      Hdec Hbad Hvalid Herr Hin.
  - destruct pre; [|discriminate Hlen]. simpl in Hin. simpl app.
    rewrite (get_battery_data_step slot after batteries self bad rest)
      by done.
    cbv zeta. by rewrite Hvalid, Herr.
  - destruct pre as [|r pre]; [discriminate Hlen|].
    apply Forall_cons_1 in Hslots as [Hs Hslots].
    apply Forall_cons_1 in Hsize as [Hr Hsize].
    apply Forall_cons_1 in Hdec as [Hd Hdec].
    simpl app.
    rewrite (get_battery_data_step s (before ++ slot :: after) batteries self
               r (pre ++ bad :: rest)) by done.
    cbv zeta.
    assert (Hnext : ∀ bs,
      get_battery_data_loop (before ++ slot :: after) bs
        (exchanged self (command_frame x5f s) (pre ++ bad :: rest))
      = (Raise e,
         mkMC3000 rest
           (ep_out self ++ command_frame x5f s
              :: (command_frame x5f <$> before ++ [slot]))
           (machine_info self))).
    { intros bs.
      rewrite (IH pre bs _ slot after bad rest e); try done;
        [|simpl in Hlen; lia].
      unfold exchanged. simpl. by rewrite <- app_assoc. }
    destruct (checksum_valid r); [|apply Hnext].
    destruct Hd as [b ->]; [done|]. apply Hnext.
Qed.

(** C6, as the code has it.  In [get_battery_data], when the responses
    before it are skipped or decode, a 64-byte response that passes the
    checksum test but holds a code without a table entry makes the
    lookup raise: [KeyError] when the chemistry, mode or cycle-mode code
    is not in its table, [IndexError] when these three resolve and the
    unit selector is above 1.  The call stops there: it returns no list,
    the command of that slot is the last one written and the responses
    after it stay unread.  [get_charging_progress] looks up no code at
    all: when every response is a 64-byte frame it returns a list with
    one record for each response that passes the checksum test, in
    order, and each record carries the raw type, status and work
    codes of its response. *)
Theorem unresolved_codes (self : MC3000) (pre : list bytes) (bad : bytes)
    (rest : list bytes) (battery_slot : battery_slot_arg)
    (responses rest' : list bytes) :
  (ep_in self = pre ++ bad :: rest → (length pre < 4)%nat →
   Forall (λ r, length r = 64%nat) pre →
   Forall (λ r, checksum_valid r = true → ∃ b, decode_battery r = Ok b) pre →
   length bad = 64%nat → checksum_valid bad = true →
   ¬ (frame_u8 bad 3 ≤ 6 ∧ frame_u8 bad 4 ≤ 4 ∧ frame_u8 bad 21 ≤ 3
      ∧ frame_u8 bad 29 ≤ 1) →
   get_battery_data self
   = (Raise (if (frame_u8 bad 3 <=? 6) && (frame_u8 bad 4 <=? 4)
                && (frame_u8 bad 21 <=? 3)
             then IndexError else KeyError),
      mkMC3000 rest
        (ep_out self ++ (command_frame x5f <$> range (S (length pre))))
        (machine_info self)))
  ∧ (let slots :=
       match battery_slot with
       | all => range 4
       | one_slot slot => [slot]
       end in
     ep_in self = responses ++ rest' → length responses = length slots →
     Forall (λ slot, -128 ≤ slot ≤ 42) slots →
     Forall (λ r, length r = 64%nat) responses →
     ∃ l : list ProgressInfo.t,
       get_charging_progress battery_slot self
       = (Ok l, mkMC3000 rest' (ep_out self ++ (command_frame x55 <$> slots))
                  (machine_info self))
       ∧ Forall2
           (λ response pinfo,
              ProgressInfo.type pinfo = frame_u8 response 2
              ∧ ProgressInfo.status pinfo = frame_u8 response 4
              ∧ ProgressInfo.work pinfo = frame_u8 response 5)
           (List.filter checksum_valid responses) l).
Proof.
  split.
  - intros Hin Hlen Hsize Hdec Hbad Hvalid Hcodes.
    pose proof (decode_battery_error bad Hbad Hcodes) as Herr.
    unfold get_battery_data.
    destruct pre as [|p0 [|p1 [|p2 [|p3 pre]]]]; [| | | |simpl in Hlen; lia].
    + apply (get_battery_data_loop_abort [] [] [] self 0 [1; 2; 3] bad rest);
        try done.
    + apply (get_battery_data_loop_abort [0] [p0] [] self 1 [2; 3] bad rest);
        try done. repeat constructor; lia.
    + apply (get_battery_data_loop_abort [0; 1] [p0; p1] [] self 2 [3] bad
               rest); try done. repeat constructor; lia.
    + apply (get_battery_data_loop_abort [0; 1; 2] [p0; p1; p2] [] self 3 []
               bad rest); try done. repeat constructor; lia.
  - intros slots Hin Hlen Hslots Hsize.
    exists (decoded_progress responses). split.
    + by apply get_charging_progress_run.
    + pose proof (filter_64 responses Hsize) as H64.
      pose proof (decoded_progress_frames responses Hsize) as Hdec.
      induction Hdec as [|r p rs ps Hp _ IH]; [constructor|].
      apply Forall_cons_1 in H64 as [Hr H64].
      constructor; [|by apply IH].
      rewrite decode_progress_eq in Hp by done. by injection Hp as <-.
Qed.

Lemma unresolved_codes_witness :
  let responses :=
    [battery_frame x00 x03; battery_frame x01 x07; battery_frame x02 x03;
     battery_frame x03 x03] in
  get_battery_data (device responses)
  = (Raise (if (frame_u8 (battery_frame x01 x07) 3 <=? 6)
               && (frame_u8 (battery_frame x01 x07) 4 <=? 4)
               && (frame_u8 (battery_frame x01 x07) 21 <=? 3)
            then IndexError else KeyError),
     mkMC3000 [battery_frame x02 x03; battery_frame x03 x03]
       (ep_out (device responses) ++ (command_frame x5f <$> range 2))
       (machine_info (device responses)))
  ∧ ∃ l : list ProgressInfo.t,
      get_charging_progress all (device responses)
      = (Ok l, mkMC3000 []
                 (ep_out (device responses)
                  ++ (command_frame x55 <$> range 4))
                 (machine_info (device responses)))
      ∧ Forall2
          (λ response pinfo,
             ProgressInfo.type pinfo = frame_u8 response 2
             ∧ ProgressInfo.status pinfo = frame_u8 response 4
             ∧ ProgressInfo.work pinfo = frame_u8 response 5)
          (List.filter checksum_valid responses) l.
Proof.
  destruct (unresolved_codes
              (device [battery_frame x00 x03; battery_frame x01 x07;
                       battery_frame x02 x03; battery_frame x03 x03])
              [battery_frame x00 x03] (battery_frame x01 x07)
              [battery_frame x02 x03; battery_frame x03 x03] all
              [battery_frame x00 x03; battery_frame x01 x07;
               battery_frame x02 x03; battery_frame x03 x03] [])
    as [Hbattery Hprogress].
  split.
  - apply Hbattery; try reflexivity.
    + simpl. lia.
    + repeat constructor.
    + repeat constructor. intros _. eexists. vm_compute. reflexivity.
    + vm_compute. intros (H & _). apply H. reflexivity.
  - apply Hprogress; try reflexivity.
    + unfold range. simpl. repeat constructor; lia.
    + repeat constructor.
Defined.
